(** * gh-ost: the shared migration context (go/base/context.go)

    A shallow embedding of [MigrationContext] and of the operations defined
    on it in [go/base/context.go]: the derived table and lock names, the
    binlog and range predicates, the [--max-load] parser and the credential
    layering, with the properties the specification states about them.

    Go strings are byte sequences: they are [string] here, one [ascii] per
    byte.  A Go [map[string]int64] is a [gmap string Z].  Pointers to
    objects that the context shares with other components are addresses
    into an explicit heap. *)

From Stdlib Require Import ZArith Lia Ascii.
From stdpp Require Import base option list strings gmap fin_maps.

Local Open Scope string_scope.
Local Open Scope Z_scope.

(** ** The Go library functions the file calls *)

Module Go.

(** *** [fmt.Sprintf] and [fmt.Errorf], for the [%s] verb on strings *)

(** What [Sprintf] appends when operands are left over. *)
Fixpoint extraOperands (args : list string) : string :=
  match args with
  | [] => ""
  | [a] => "string=" +:+ a
  | a :: rest => "string=" +:+ a +:+ ", " +:+ extraOperands rest
  end.

Definition extra (args : list string) : string :=
  match args with
  | [] => ""
  | _ => "%!(EXTRA " +:+ extraOperands args +:+ ")"
  end.

(** [Sprintf format args]: [%s] prints the next operand as it is, [%%] a
    percent sign, every other byte itself; a [%s] without operand prints
    [%!s(MISSING)].  The formats of this file have no other verb. *)
Fixpoint Sprintf (format : string) (args : list string) : string :=
  match format with
  | EmptyString => extra args
  | String c rest =>
      if Ascii.eqb c "%" then
        match rest with
        | String d rest' =>
            if Ascii.eqb d "s" then
              match args with
              | a :: args' => a +:+ Sprintf rest' args'
              | [] => "%!s(MISSING)" +:+ Sprintf rest' []
              end
            else if Ascii.eqb d "%" then String "%" (Sprintf rest' args)
            else String c (Sprintf rest args)
        | EmptyString => "%!(NOVERB)" +:+ extra args
        end
      else String c (Sprintf rest args)
  end.

(** A Go [error]: [nil], or a value carrying its message. *)
Definition error := option string.

Definition Errorf (format : string) (args : list string) : error :=
  Some (Sprintf format args).

End Go.

Module strings.

(** [strings.Split s sep] for a separator of one byte, which is how this
    file calls it: the pieces of [s] between the occurrences of [sep], in
    order; a string without [sep] is the one piece, and so is the empty
    string. *)
Fixpoint Split (s : string) (sep : ascii) : list string :=
  match s with
  | EmptyString => [""]
  | String c rest =>
      if Ascii.eqb c sep then "" :: Split rest sep
      else match Split rest sep with
           | tok :: toks => String c tok :: toks
           | [] => [String c ""]
           end
  end.

End strings.

Module strconv.

Inductive NumError := ErrSyntax | ErrRange.

(** [IntSize]: the size in bits of an [int]. *)
Definition IntSize : Z := 64.

Definition maxUint64 : Z := 2 ^ 64 - 1.

(** Arithmetic on [uint64] wraps around; [int64 u] is the conversion of
    an unsigned 64-bit value to [int64]. *)
Definition uint64 (z : Z) : Z := z mod 2 ^ 64.
Definition int64 (z : Z) : Z := (z + 2 ^ 63) mod 2 ^ 64 - 2 ^ 63.

(** The value of a decimal digit byte. *)
Definition digit (c : ascii) : option Z :=
  let b := Z.of_N (N_of_ascii c) in
  if (48 <=? b) && (b <=? 57) then Some (b - 48) else None.

(** The loop of [ParseUint] in base 10 over the remaining bytes, [n] being
    the value read so far. *)
Fixpoint ParseUint_loop (s : string) (maxVal n : Z) : Z * option NumError :=
  match s with
  | EmptyString => (n, None)
  | String c rest =>
      match digit c with
      | None => (0, Some ErrSyntax)
      | Some d =>
          if n >=? maxUint64 / 10 + 1 then (maxVal, Some ErrRange)
          else
            let n10 := uint64 (n * 10) in
            let n1 := uint64 (n10 + d) in
            if (n1 <? n10) || (n1 >? maxVal) then (maxVal, Some ErrRange)
            else ParseUint_loop rest maxVal n1
      end
  end.

(** [strconv.ParseUint s 10 bitSize]. *)
Definition ParseUint (s : string) (bitSize : Z) : Z * option NumError :=
  match s with
  | EmptyString => (0, Some ErrSyntax)
  | _ =>
      let bitSize := if bitSize =? 0 then IntSize else bitSize in
      ParseUint_loop s (uint64 (uint64 (Z.shiftl 1 bitSize) - 1)) 0
  end.

(** [strconv.ParseInt s 10 bitSize]. *)
Definition ParseInt (s : string) (bitSize : Z) : Z * option NumError :=
  match s with
  | EmptyString => (0, Some ErrSyntax)
  | String c rest =>
      let neg := Ascii.eqb c "-" in
      let s' := if Ascii.eqb c "+" || neg then rest else s in
      match ParseUint s' bitSize with
      | (_, Some ErrSyntax) => (0, Some ErrSyntax)
      | (un, _) =>
          let bitSize := if bitSize =? 0 then IntSize else bitSize in
          let cutoff := uint64 (Z.shiftl 1 (bitSize - 1)) in
          if negb neg && (un >=? cutoff) then (int64 (cutoff - 1), Some ErrRange)
          else if neg && (un >? cutoff) then (int64 (- int64 cutoff), Some ErrRange)
          else
            let n := int64 un in
            (if neg then int64 (- n) else n, None)
      end
  end.

End strconv.

(** ** Pointers and the heap *)

(** A pointer is [nil] or the address of an object; the heap is the list of
    the objects allocated so far, an address being an index into it. *)
Definition ptr := option nat.
Definition nil : ptr := None.

Module mysql.

(** Modelled from the spec: the declaration of [mysql.ConnectionConfig]
    (package [go/mysql]) is not part of this file; the specification
    describes a connection identity as a host/port/credential tuple.  The
    fields [User] and [Password] are the ones [ApplyCredentials] assigns. *)
Record ConnectionConfig := {
  Hostname : string;
  Port : Z;
  User : string;
  Password : string
}.

#[global] Instance ConnectionConfig_eq_dec : EqDecision ConnectionConfig.
Proof. solve_decision. Defined.

Definition set_User (c : ConnectionConfig) (v : string) : ConnectionConfig :=
  {| Hostname := Hostname c; Port := Port c; User := v; Password := Password c |}.

Definition set_Password (c : ConnectionConfig) (v : string) : ConnectionConfig :=
  {| Hostname := Hostname c; Port := Port c; User := User c; Password := v |}.

(** Modelled from the spec: [ConnectionConfig.Equals] (package [go/mysql])
    is not part of this file; the specification speaks of equality between
    the two host/port/credential tuples. *)
Definition Equals (this other : ConnectionConfig) : bool :=
  bool_decide (this = other).

(** The zero value of the struct. *)
Definition zero : ConnectionConfig :=
  {| Hostname := ""; Port := 0; User := ""; Password := "" |}.

End mysql.

Inductive Object :=
| ObjConnectionConfig (c : mysql.ConnectionConfig)
| ObjMutex
| ObjInstanceKeyMap.

Abbreviation Heap := (list Object).

(** [new]: a fresh object, at the first unused address. *)
Definition alloc (o : Object) (h : Heap) : ptr * Heap :=
  (Some (List.length h), (h ++ [o])%list).

(** Modelled from the spec: [mysql.NewConnectionConfig] and
    [mysql.NewInstanceKeyMap] (package [go/mysql]) are not part of this
    file; each returns a pointer to a new object, the configuration being
    the zero value of the host/port/credential tuple. *)
Definition NewConnectionConfig (h : Heap) : ptr * Heap :=
  alloc (ObjConnectionConfig mysql.zero) h.

Definition NewInstanceKeyMap (h : Heap) : ptr * Heap :=
  alloc ObjInstanceKeyMap h.

Definition load (p : ptr) (h : Heap) : option Object :=
  match p with
  | Some a => h !! a
  | None => None
  end.

(** Reading through a [*mysql.ConnectionConfig]; [None] is the run-time
    panic of a nil dereference. *)
Definition loadConfig (p : ptr) (h : Heap) : option mysql.ConnectionConfig :=
  match load p h with
  | Some (ObjConnectionConfig c) => Some c
  | _ => None
  end.

(** Writing through a [*mysql.ConnectionConfig]. *)
Definition storeConfig (p : ptr) (c : mysql.ConnectionConfig) (h : Heap)
  : option Heap :=
  match p, loadConfig p h with
  | Some a, Some _ => Some (<[a := ObjConnectionConfig c]> h)
  | _, _ => None
  end.

(** ** The migration context *)

(** [time.Time], as an instant on a clock; zero is the zero value. *)
Definition Time := Z.

Module Client.
Record t := { User : string; Password : string }.
End Client.

Module Osc.
Record t := {
  Chunk_Size : Z;
  Max_Lag_Millis : Z;
  Replication_Lag_Query : string;
  Max_Load : string
}.
End Osc.

Record ContextConfig := {
  Client : Client.t;
  Osc : Osc.t
}.

(** [MigrationContext]: the fields in the order of the declaration.  The
    [MaxLoad] map is held by value: the context owns the map that
    [newMigrationContext] makes, and no method of this file replaces it (a
    nil map, which an assignment would panic on, is not represented).
    Pointers to objects of other packages are addresses. *)
Record MigrationContext := {
  DatabaseName : string;
  OriginalTableName : string;
  AlterStatement : string;

  CountTableRows : bool;
  AllowedRunningOnMaster : bool;
  SwitchToRowBinlogFormat : bool;
  NullableUniqueKeyAllowed : bool;

  config : ContextConfig;
  configMutex : ptr;
  ConfigFile : string;
  CliUser : string;
  CliPassword : string;

  ChunkSize : Z;
  MaxLagMillisecondsThrottleThreshold : Z;
  ReplictionLagQuery : string;
  ThrottleControlReplicaKeys : ptr;
  ThrottleFlagFile : string;
  ThrottleAdditionalFlagFile : string;
  MaxLoad : gmap string Z;
  PostponeSwapTablesFlagFile : string;
  SwapTablesTimeoutSeconds : Z;

  Noop : bool;
  TestOnReplica : bool;
  OkToDropTable : bool;
  InitiallyDropOldTable : bool;
  InitiallyDropGhostTable : bool;
  CutOverType : Z;

  TableEngine : string;
  RowsEstimate : Z;
  UsedRowsEstimateMethod : string;
  OriginalBinlogFormat : string;
  OriginalBinlogRowImage : string;
  InspectorConnectionConfig : ptr;
  ApplierConnectionConfig : ptr;
  StartTime : Time;
  RowCopyStartTime : Time;
  LockTablesStartTime : Time;
  RenameTablesStartTime : Time;
  RenameTablesEndTime : Time;
  pointOfInterestTime : Time;
  pointOfInterestTimeMutex : ptr;
  CurrentLag : Z;
  TotalRowsCopied : Z;
  TotalDMLEventsApplied : Z;
  isThrottled : bool;
  throttleReason : string;
  throttleMutex : ptr;

  OriginalTableColumns : ptr;
  OriginalTableUniqueKeys : list ptr;
  GhostTableColumns : ptr;
  GhostTableUniqueKeys : list ptr;
  UniqueKey : ptr;
  SharedColumns : ptr;
  MigrationRangeMinValues : ptr;
  MigrationRangeMaxValues : ptr;
  Iteration : Z;
  MigrationIterationRangeMinValues : ptr;
  MigrationIterationRangeMaxValues : ptr;

  CanStopStreaming : ptr
}.

(** The assignment [this.MaxLoad[...] = ...] changes the map and nothing
    else of the context. *)
Definition set_MaxLoad (this : MigrationContext) (m : gmap string Z)
  : MigrationContext :=
  {| DatabaseName := DatabaseName this;
     OriginalTableName := OriginalTableName this;
     AlterStatement := AlterStatement this;
     CountTableRows := CountTableRows this;
     AllowedRunningOnMaster := AllowedRunningOnMaster this;
     SwitchToRowBinlogFormat := SwitchToRowBinlogFormat this;
     NullableUniqueKeyAllowed := NullableUniqueKeyAllowed this;
     config := config this;
     configMutex := configMutex this;
     ConfigFile := ConfigFile this;
     CliUser := CliUser this;
     CliPassword := CliPassword this;
     ChunkSize := ChunkSize this;
     MaxLagMillisecondsThrottleThreshold := MaxLagMillisecondsThrottleThreshold this;
     ReplictionLagQuery := ReplictionLagQuery this;
     ThrottleControlReplicaKeys := ThrottleControlReplicaKeys this;
     ThrottleFlagFile := ThrottleFlagFile this;
     ThrottleAdditionalFlagFile := ThrottleAdditionalFlagFile this;
     MaxLoad := m;
     PostponeSwapTablesFlagFile := PostponeSwapTablesFlagFile this;
     SwapTablesTimeoutSeconds := SwapTablesTimeoutSeconds this;
     Noop := Noop this;
     TestOnReplica := TestOnReplica this;
     OkToDropTable := OkToDropTable this;
     InitiallyDropOldTable := InitiallyDropOldTable this;
     InitiallyDropGhostTable := InitiallyDropGhostTable this;
     CutOverType := CutOverType this;
     TableEngine := TableEngine this;
     RowsEstimate := RowsEstimate this;
     UsedRowsEstimateMethod := UsedRowsEstimateMethod this;
     OriginalBinlogFormat := OriginalBinlogFormat this;
     OriginalBinlogRowImage := OriginalBinlogRowImage this;
     InspectorConnectionConfig := InspectorConnectionConfig this;
     ApplierConnectionConfig := ApplierConnectionConfig this;
     StartTime := StartTime this;
     RowCopyStartTime := RowCopyStartTime this;
     LockTablesStartTime := LockTablesStartTime this;
     RenameTablesStartTime := RenameTablesStartTime this;
     RenameTablesEndTime := RenameTablesEndTime this;
     pointOfInterestTime := pointOfInterestTime this;
     pointOfInterestTimeMutex := pointOfInterestTimeMutex this;
     CurrentLag := CurrentLag this;
     TotalRowsCopied := TotalRowsCopied this;
     TotalDMLEventsApplied := TotalDMLEventsApplied this;
     isThrottled := isThrottled this;
     throttleReason := throttleReason this;
     throttleMutex := throttleMutex this;
     OriginalTableColumns := OriginalTableColumns this;
     OriginalTableUniqueKeys := OriginalTableUniqueKeys this;
     GhostTableColumns := GhostTableColumns this;
     GhostTableUniqueKeys := GhostTableUniqueKeys this;
     UniqueKey := UniqueKey this;
     SharedColumns := SharedColumns this;
     MigrationRangeMinValues := MigrationRangeMinValues this;
     MigrationRangeMaxValues := MigrationRangeMaxValues this;
     Iteration := Iteration this;
     MigrationIterationRangeMinValues := MigrationIterationRangeMinValues this;
     MigrationIterationRangeMaxValues := MigrationIterationRangeMaxValues this;
     CanStopStreaming := CanStopStreaming this |}.

(** [newMigrationContext]: the composite literal sets ten fields, the
    others keep their zero values; its allocations happen in the order of
    the literal. *)
Definition newMigrationContext (h : Heap) : MigrationContext * Heap :=
  let '(inspector, h) := NewConnectionConfig h in
  let '(applier, h) := NewConnectionConfig h in
  let '(throttleMu, h) := alloc ObjMutex h in
  let '(replicaKeys, h) := NewInstanceKeyMap h in
  let '(configMu, h) := alloc ObjMutex h in
  let '(pointOfInterestMu, h) := alloc ObjMutex h in
  ({| DatabaseName := "";
      OriginalTableName := "";
      AlterStatement := "";
      CountTableRows := false;
      AllowedRunningOnMaster := false;
      SwitchToRowBinlogFormat := false;
      NullableUniqueKeyAllowed := false;
      config := {| Client := {| Client.User := ""; Client.Password := "" |};
                   Osc := {| Osc.Chunk_Size := 0; Osc.Max_Lag_Millis := 0;
                             Osc.Replication_Lag_Query := "";
                             Osc.Max_Load := "" |} |};
      configMutex := configMu;
      ConfigFile := "";
      CliUser := "";
      CliPassword := "";
      ChunkSize := 1000;
      MaxLagMillisecondsThrottleThreshold := 1000;
      ReplictionLagQuery := "";
      ThrottleControlReplicaKeys := replicaKeys;
      ThrottleFlagFile := "";
      ThrottleAdditionalFlagFile := "";
      MaxLoad := ∅;
      PostponeSwapTablesFlagFile := "";
      SwapTablesTimeoutSeconds := 3;
      Noop := false;
      TestOnReplica := false;
      OkToDropTable := false;
      InitiallyDropOldTable := false;
      InitiallyDropGhostTable := false;
      CutOverType := 0;
      TableEngine := "";
      RowsEstimate := 0;
      UsedRowsEstimateMethod := "";
      OriginalBinlogFormat := "";
      OriginalBinlogRowImage := "";
      InspectorConnectionConfig := inspector;
      ApplierConnectionConfig := applier;
      StartTime := 0;
      RowCopyStartTime := 0;
      LockTablesStartTime := 0;
      RenameTablesStartTime := 0;
      RenameTablesEndTime := 0;
      pointOfInterestTime := 0;
      pointOfInterestTimeMutex := pointOfInterestMu;
      CurrentLag := 0;
      TotalRowsCopied := 0;
      TotalDMLEventsApplied := 0;
      isThrottled := false;
      throttleReason := "";
      throttleMutex := throttleMu;
      OriginalTableColumns := nil;
      OriginalTableUniqueKeys := [];
      GhostTableColumns := nil;
      GhostTableUniqueKeys := [];
      UniqueKey := nil;
      SharedColumns := nil;
      MigrationRangeMinValues := nil;
      MigrationRangeMaxValues := nil;
      Iteration := 0;
      MigrationIterationRangeMinValues := nil;
      MigrationIterationRangeMaxValues := nil;
      CanStopStreaming := nil |}, h).

(** ** The methods of [MigrationContext] *)

(** [GetGhostTableName] generates the name of the ghost table. *)
Definition GetGhostTableName (this : MigrationContext) : string :=
  Go.Sprintf "_%s_gst" [OriginalTableName this].

(** [GetOldTableName] generates the name of the table into which the
    original table is renamed. *)
Definition GetOldTableName (this : MigrationContext) : string :=
  Go.Sprintf "_%s_old" [OriginalTableName this].

(** [GetChangelogTableName] generates the name of the changelog table. *)
Definition GetChangelogTableName (this : MigrationContext) : string :=
  Go.Sprintf "_%s_osc" [OriginalTableName this].

(** [GetVoluntaryLockName] returns the name of the voluntary lock of the
    swap-tables process. *)
Definition GetVoluntaryLockName (this : MigrationContext) : string :=
  Go.Sprintf "%s.%s.lock" [DatabaseName this; OriginalTableName this].

(** [RequiresBinlogFormatChange]: the original binlog format is not ROW. *)
Definition RequiresBinlogFormatChange (this : MigrationContext) : bool :=
  negb (String.eqb (OriginalBinlogFormat this) "ROW").

(** [InspectorIsAlsoApplier]: the call reads both configurations through
    their pointers. *)
Definition InspectorIsAlsoApplier (this : MigrationContext) (h : Heap)
  : option bool :=
  inspector ← loadConfig (InspectorConnectionConfig this) h;
  applier ← loadConfig (ApplierConnectionConfig this) h;
  Some (mysql.Equals inspector applier).

(** [HasMigrationRange]: both range pointers are set. *)
Definition HasMigrationRange (this : MigrationContext) : bool :=
  negb (bool_decide (MigrationRangeMinValues this = nil))
  && negb (bool_decide (MigrationRangeMaxValues this = nil)).

(** The loop of [ReadMaxLoad] over the conditions still to read.  A
    condition that fails returns at once, with the assignments of the
    conditions before it made. *)
Fixpoint ReadMaxLoad_loop (maxLoadConditions : list string)
    (this : MigrationContext) : Go.error * MigrationContext :=
  match maxLoadConditions with
  | [] => (None, this)
  | maxLoadCondition :: rest =>
      let maxLoadTokens := strings.Split maxLoadCondition "=" in
      if negb (Nat.eqb (List.length maxLoadTokens) 2) then
        (Go.Errorf "Error parsing max-load condition: %s" [maxLoadCondition],
         this)
      else if String.eqb (nth 0 maxLoadTokens "") "" then
        (Go.Errorf "Error parsing status variable in max-load condition: %s"
           [maxLoadCondition], this)
      else
        match strconv.ParseInt (nth 1 maxLoadTokens "") 0 with
        | (_, Some _) =>
            (Go.Errorf "Error parsing numeric value in max-load condition: %s"
               [maxLoadCondition], this)
        | (n, None) =>
            ReadMaxLoad_loop rest
              (set_MaxLoad this (<[nth 0 maxLoadTokens "" := n]> (MaxLoad this)))
        end
  end.

(** [ReadMaxLoad] parses the [--max-load] flag. *)
Definition ReadMaxLoad (this : MigrationContext) (maxLoadList : string)
  : Go.error * MigrationContext :=
  if String.eqb maxLoadList "" then (None, this)
  else ReadMaxLoad_loop (strings.Split maxLoadList ",") this.

(** The assignments [p.User = v] and [p.Password = v]. *)
Definition assignUser (p : ptr) (v : string) (h : Heap) : option Heap :=
  c ← loadConfig p h; storeConfig p (mysql.set_User c v) h.

Definition assignPassword (p : ptr) (v : string) (h : Heap) : option Heap :=
  c ← loadConfig p h; storeConfig p (mysql.set_Password c v) h.

(** [ApplyCredentials] sorts out the credentials between the config file
    and the CLI flags.  [configMutex] is locked on entry and unlocked on
    return, which leaves it as it was; the sequential model leaves the two
    calls out. *)
Definition ApplyCredentials (this : MigrationContext) (h : Heap)
  : option (MigrationContext * Heap) :=
  h ← (if negb (String.eqb (Client.User (Client (config this))) "")
       then assignUser (InspectorConnectionConfig this)
              (Client.User (Client (config this))) h
       else Some h);
  h ← (if negb (String.eqb (CliUser this) "")
       then assignUser (InspectorConnectionConfig this) (CliUser this) h
       else Some h);
  h ← (if negb (String.eqb (Client.Password (Client (config this))) "")
       then assignPassword (InspectorConnectionConfig this)
              (Client.Password (Client (config this))) h
       else Some h);
  h ← (if negb (String.eqb (CliPassword this) "")
       then assignPassword (InspectorConnectionConfig this) (CliPassword this) h
       else Some h);
  Some (this, h).

(** ** The throttle state, the table engine and the config file *)

(** The assignments of [isThrottled] and [throttleReason]. *)
Definition set_throttle (this : MigrationContext) (throttle : bool) (reason : string)
  : MigrationContext :=
  {| DatabaseName := DatabaseName this;
     OriginalTableName := OriginalTableName this;
     AlterStatement := AlterStatement this;
     CountTableRows := CountTableRows this;
     AllowedRunningOnMaster := AllowedRunningOnMaster this;
     SwitchToRowBinlogFormat := SwitchToRowBinlogFormat this;
     NullableUniqueKeyAllowed := NullableUniqueKeyAllowed this;
     config := config this;
     configMutex := configMutex this;
     ConfigFile := ConfigFile this;
     CliUser := CliUser this;
     CliPassword := CliPassword this;
     ChunkSize := ChunkSize this;
     MaxLagMillisecondsThrottleThreshold := MaxLagMillisecondsThrottleThreshold this;
     ReplictionLagQuery := ReplictionLagQuery this;
     ThrottleControlReplicaKeys := ThrottleControlReplicaKeys this;
     ThrottleFlagFile := ThrottleFlagFile this;
     ThrottleAdditionalFlagFile := ThrottleAdditionalFlagFile this;
     MaxLoad := MaxLoad this;
     PostponeSwapTablesFlagFile := PostponeSwapTablesFlagFile this;
     SwapTablesTimeoutSeconds := SwapTablesTimeoutSeconds this;
     Noop := Noop this;
     TestOnReplica := TestOnReplica this;
     OkToDropTable := OkToDropTable this;
     InitiallyDropOldTable := InitiallyDropOldTable this;
     InitiallyDropGhostTable := InitiallyDropGhostTable this;
     CutOverType := CutOverType this;
     TableEngine := TableEngine this;
     RowsEstimate := RowsEstimate this;
     UsedRowsEstimateMethod := UsedRowsEstimateMethod this;
     OriginalBinlogFormat := OriginalBinlogFormat this;
     OriginalBinlogRowImage := OriginalBinlogRowImage this;
     InspectorConnectionConfig := InspectorConnectionConfig this;
     ApplierConnectionConfig := ApplierConnectionConfig this;
     StartTime := StartTime this;
     RowCopyStartTime := RowCopyStartTime this;
     LockTablesStartTime := LockTablesStartTime this;
     RenameTablesStartTime := RenameTablesStartTime this;
     RenameTablesEndTime := RenameTablesEndTime this;
     pointOfInterestTime := pointOfInterestTime this;
     pointOfInterestTimeMutex := pointOfInterestTimeMutex this;
     CurrentLag := CurrentLag this;
     TotalRowsCopied := TotalRowsCopied this;
     TotalDMLEventsApplied := TotalDMLEventsApplied this;
     isThrottled := throttle;
     throttleReason := reason;
     throttleMutex := throttleMutex this;
     OriginalTableColumns := OriginalTableColumns this;
     OriginalTableUniqueKeys := OriginalTableUniqueKeys this;
     GhostTableColumns := GhostTableColumns this;
     GhostTableUniqueKeys := GhostTableUniqueKeys this;
     UniqueKey := UniqueKey this;
     SharedColumns := SharedColumns this;
     MigrationRangeMinValues := MigrationRangeMinValues this;
     MigrationRangeMaxValues := MigrationRangeMaxValues this;
     Iteration := Iteration this;
     MigrationIterationRangeMinValues := MigrationIterationRangeMinValues this;
     MigrationIterationRangeMaxValues := MigrationIterationRangeMaxValues this;
     CanStopStreaming := CanStopStreaming this |}.

(** [SetThrottled] and [IsThrottled]; [throttleMutex] is locked on entry and
    unlocked on return, which the sequential model leaves out, as it does
    for [ApplyCredentials]. *)
Definition SetThrottled (this : MigrationContext) (throttle : bool)
    (reason : string) : MigrationContext :=
  set_throttle this throttle reason.

Definition IsThrottled (this : MigrationContext) : bool * string :=
  (isThrottled this, throttleReason this).

(** [IsTransactionalTable]: the switch on the lower-cased table engine.
    [strings.ToLower] maps Unicode letters; it is a parameter here, and
    the properties assume of it only what it does on ASCII strings. *)
Definition IsTransactionalTable (ToLower : string → string)
    (this : MigrationContext) : bool :=
  let engine := ToLower (TableEngine this) in
  if String.eqb engine "innodb" then true
  else if String.eqb engine "tokudb" then true
  else false.

(** What [strings.ToLower] does on a string of ASCII bytes: the letters [A]
    to [Z] become [a] to [z], every other byte stays. *)
Definition lowerByte (c : ascii) : ascii :=
  let b := N_of_ascii c in
  if (65 <=? b)%N && (b <=? 90)%N then ascii_of_N (b + 32) else c.

Fixpoint lowerASCII (s : string) : string :=
  match s with
  | EmptyString => ""
  | String c rest => String (lowerByte c) (lowerASCII rest)
  end.

Fixpoint isASCII (s : string) : bool :=
  match s with
  | EmptyString => true
  | String c rest => (N_of_ascii c <? 128)%N && isASCII rest
  end.



(** ** Assignments that callers make to the exported fields *)

(** The credentials as [ReadConfigFile] and the command line leave them:
    [config.Client.User], [config.Client.Password], [CliUser] and
    [CliPassword]. *)
Definition set_credentials (this : MigrationContext) (fileUser filePassword cliUser cliPassword : string)
  : MigrationContext :=
  {| DatabaseName := DatabaseName this;
     OriginalTableName := OriginalTableName this;
     AlterStatement := AlterStatement this;
     CountTableRows := CountTableRows this;
     AllowedRunningOnMaster := AllowedRunningOnMaster this;
     SwitchToRowBinlogFormat := SwitchToRowBinlogFormat this;
     NullableUniqueKeyAllowed := NullableUniqueKeyAllowed this;
     config := {| Client := {| Client.User := fileUser;
                               Client.Password := filePassword |};
                  Osc := Osc (config this) |};
     configMutex := configMutex this;
     ConfigFile := ConfigFile this;
     CliUser := cliUser;
     CliPassword := cliPassword;
     ChunkSize := ChunkSize this;
     MaxLagMillisecondsThrottleThreshold := MaxLagMillisecondsThrottleThreshold this;
     ReplictionLagQuery := ReplictionLagQuery this;
     ThrottleControlReplicaKeys := ThrottleControlReplicaKeys this;
     ThrottleFlagFile := ThrottleFlagFile this;
     ThrottleAdditionalFlagFile := ThrottleAdditionalFlagFile this;
     MaxLoad := MaxLoad this;
     PostponeSwapTablesFlagFile := PostponeSwapTablesFlagFile this;
     SwapTablesTimeoutSeconds := SwapTablesTimeoutSeconds this;
     Noop := Noop this;
     TestOnReplica := TestOnReplica this;
     OkToDropTable := OkToDropTable this;
     InitiallyDropOldTable := InitiallyDropOldTable this;
     InitiallyDropGhostTable := InitiallyDropGhostTable this;
     CutOverType := CutOverType this;
     TableEngine := TableEngine this;
     RowsEstimate := RowsEstimate this;
     UsedRowsEstimateMethod := UsedRowsEstimateMethod this;
     OriginalBinlogFormat := OriginalBinlogFormat this;
     OriginalBinlogRowImage := OriginalBinlogRowImage this;
     InspectorConnectionConfig := InspectorConnectionConfig this;
     ApplierConnectionConfig := ApplierConnectionConfig this;
     StartTime := StartTime this;
     RowCopyStartTime := RowCopyStartTime this;
     LockTablesStartTime := LockTablesStartTime this;
     RenameTablesStartTime := RenameTablesStartTime this;
     RenameTablesEndTime := RenameTablesEndTime this;
     pointOfInterestTime := pointOfInterestTime this;
     pointOfInterestTimeMutex := pointOfInterestTimeMutex this;
     CurrentLag := CurrentLag this;
     TotalRowsCopied := TotalRowsCopied this;
     TotalDMLEventsApplied := TotalDMLEventsApplied this;
     isThrottled := isThrottled this;
     throttleReason := throttleReason this;
     throttleMutex := throttleMutex this;
     OriginalTableColumns := OriginalTableColumns this;
     OriginalTableUniqueKeys := OriginalTableUniqueKeys this;
     GhostTableColumns := GhostTableColumns this;
     GhostTableUniqueKeys := GhostTableUniqueKeys this;
     UniqueKey := UniqueKey this;
     SharedColumns := SharedColumns this;
     MigrationRangeMinValues := MigrationRangeMinValues this;
     MigrationRangeMaxValues := MigrationRangeMaxValues this;
     Iteration := Iteration this;
     MigrationIterationRangeMinValues := MigrationIterationRangeMinValues this;
     MigrationIterationRangeMaxValues := MigrationIterationRangeMaxValues this;
     CanStopStreaming := CanStopStreaming this |}.

(** The assignment [this.ApplierConnectionConfig = p]. *)
Definition set_ApplierConnectionConfig (this : MigrationContext) (p : ptr)
  : MigrationContext :=
  {| DatabaseName := DatabaseName this;
     OriginalTableName := OriginalTableName this;
     AlterStatement := AlterStatement this;
     CountTableRows := CountTableRows this;
     AllowedRunningOnMaster := AllowedRunningOnMaster this;
     SwitchToRowBinlogFormat := SwitchToRowBinlogFormat this;
     NullableUniqueKeyAllowed := NullableUniqueKeyAllowed this;
     config := config this;
     configMutex := configMutex this;
     ConfigFile := ConfigFile this;
     CliUser := CliUser this;
     CliPassword := CliPassword this;
     ChunkSize := ChunkSize this;
     MaxLagMillisecondsThrottleThreshold := MaxLagMillisecondsThrottleThreshold this;
     ReplictionLagQuery := ReplictionLagQuery this;
     ThrottleControlReplicaKeys := ThrottleControlReplicaKeys this;
     ThrottleFlagFile := ThrottleFlagFile this;
     ThrottleAdditionalFlagFile := ThrottleAdditionalFlagFile this;
     MaxLoad := MaxLoad this;
     PostponeSwapTablesFlagFile := PostponeSwapTablesFlagFile this;
     SwapTablesTimeoutSeconds := SwapTablesTimeoutSeconds this;
     Noop := Noop this;
     TestOnReplica := TestOnReplica this;
     OkToDropTable := OkToDropTable this;
     InitiallyDropOldTable := InitiallyDropOldTable this;
     InitiallyDropGhostTable := InitiallyDropGhostTable this;
     CutOverType := CutOverType this;
     TableEngine := TableEngine this;
     RowsEstimate := RowsEstimate this;
     UsedRowsEstimateMethod := UsedRowsEstimateMethod this;
     OriginalBinlogFormat := OriginalBinlogFormat this;
     OriginalBinlogRowImage := OriginalBinlogRowImage this;
     InspectorConnectionConfig := InspectorConnectionConfig this;
     ApplierConnectionConfig := p;
     StartTime := StartTime this;
     RowCopyStartTime := RowCopyStartTime this;
     LockTablesStartTime := LockTablesStartTime this;
     RenameTablesStartTime := RenameTablesStartTime this;
     RenameTablesEndTime := RenameTablesEndTime this;
     pointOfInterestTime := pointOfInterestTime this;
     pointOfInterestTimeMutex := pointOfInterestTimeMutex this;
     CurrentLag := CurrentLag this;
     TotalRowsCopied := TotalRowsCopied this;
     TotalDMLEventsApplied := TotalDMLEventsApplied this;
     isThrottled := isThrottled this;
     throttleReason := throttleReason this;
     throttleMutex := throttleMutex this;
     OriginalTableColumns := OriginalTableColumns this;
     OriginalTableUniqueKeys := OriginalTableUniqueKeys this;
     GhostTableColumns := GhostTableColumns this;
     GhostTableUniqueKeys := GhostTableUniqueKeys this;
     UniqueKey := UniqueKey this;
     SharedColumns := SharedColumns this;
     MigrationRangeMinValues := MigrationRangeMinValues this;
     MigrationRangeMaxValues := MigrationRangeMaxValues this;
     Iteration := Iteration this;
     MigrationIterationRangeMinValues := MigrationIterationRangeMinValues this;
     MigrationIterationRangeMaxValues := MigrationIterationRangeMaxValues this;
     CanStopStreaming := CanStopStreaming this |}.

(** The assignments of [MigrationRangeMinValues] and [MigrationRangeMaxValues]. *)
Definition set_MigrationRange (this : MigrationContext) (minValues maxValues : ptr)
  : MigrationContext :=
  {| DatabaseName := DatabaseName this;
     OriginalTableName := OriginalTableName this;
     AlterStatement := AlterStatement this;
     CountTableRows := CountTableRows this;
     AllowedRunningOnMaster := AllowedRunningOnMaster this;
     SwitchToRowBinlogFormat := SwitchToRowBinlogFormat this;
     NullableUniqueKeyAllowed := NullableUniqueKeyAllowed this;
     config := config this;
     configMutex := configMutex this;
     ConfigFile := ConfigFile this;
     CliUser := CliUser this;
     CliPassword := CliPassword this;
     ChunkSize := ChunkSize this;
     MaxLagMillisecondsThrottleThreshold := MaxLagMillisecondsThrottleThreshold this;
     ReplictionLagQuery := ReplictionLagQuery this;
     ThrottleControlReplicaKeys := ThrottleControlReplicaKeys this;
     ThrottleFlagFile := ThrottleFlagFile this;
     ThrottleAdditionalFlagFile := ThrottleAdditionalFlagFile this;
     MaxLoad := MaxLoad this;
     PostponeSwapTablesFlagFile := PostponeSwapTablesFlagFile this;
     SwapTablesTimeoutSeconds := SwapTablesTimeoutSeconds this;
     Noop := Noop this;
     TestOnReplica := TestOnReplica this;
     OkToDropTable := OkToDropTable this;
     InitiallyDropOldTable := InitiallyDropOldTable this;
     InitiallyDropGhostTable := InitiallyDropGhostTable this;
     CutOverType := CutOverType this;
     TableEngine := TableEngine this;
     RowsEstimate := RowsEstimate this;
     UsedRowsEstimateMethod := UsedRowsEstimateMethod this;
     OriginalBinlogFormat := OriginalBinlogFormat this;
     OriginalBinlogRowImage := OriginalBinlogRowImage this;
     InspectorConnectionConfig := InspectorConnectionConfig this;
     ApplierConnectionConfig := ApplierConnectionConfig this;
     StartTime := StartTime this;
     RowCopyStartTime := RowCopyStartTime this;
     LockTablesStartTime := LockTablesStartTime this;
     RenameTablesStartTime := RenameTablesStartTime this;
     RenameTablesEndTime := RenameTablesEndTime this;
     pointOfInterestTime := pointOfInterestTime this;
     pointOfInterestTimeMutex := pointOfInterestTimeMutex this;
     CurrentLag := CurrentLag this;
     TotalRowsCopied := TotalRowsCopied this;
     TotalDMLEventsApplied := TotalDMLEventsApplied this;
     isThrottled := isThrottled this;
     throttleReason := throttleReason this;
     throttleMutex := throttleMutex this;
     OriginalTableColumns := OriginalTableColumns this;
     OriginalTableUniqueKeys := OriginalTableUniqueKeys this;
     GhostTableColumns := GhostTableColumns this;
     GhostTableUniqueKeys := GhostTableUniqueKeys this;
     UniqueKey := UniqueKey this;
     SharedColumns := SharedColumns this;
     MigrationRangeMinValues := minValues;
     MigrationRangeMaxValues := maxValues;
     Iteration := Iteration this;
     MigrationIterationRangeMinValues := MigrationIterationRangeMinValues this;
     MigrationIterationRangeMaxValues := MigrationIterationRangeMaxValues this;
     CanStopStreaming := CanStopStreaming this |}.

(** The assignments of [DatabaseName] and [OriginalTableName]. *)
Definition set_table (this : MigrationContext) (databaseName originalTableName : string)
  : MigrationContext :=
  {| DatabaseName := databaseName;
     OriginalTableName := originalTableName;
     AlterStatement := AlterStatement this;
     CountTableRows := CountTableRows this;
     AllowedRunningOnMaster := AllowedRunningOnMaster this;
     SwitchToRowBinlogFormat := SwitchToRowBinlogFormat this;
     NullableUniqueKeyAllowed := NullableUniqueKeyAllowed this;
     config := config this;
     configMutex := configMutex this;
     ConfigFile := ConfigFile this;
     CliUser := CliUser this;
     CliPassword := CliPassword this;
     ChunkSize := ChunkSize this;
     MaxLagMillisecondsThrottleThreshold := MaxLagMillisecondsThrottleThreshold this;
     ReplictionLagQuery := ReplictionLagQuery this;
     ThrottleControlReplicaKeys := ThrottleControlReplicaKeys this;
     ThrottleFlagFile := ThrottleFlagFile this;
     ThrottleAdditionalFlagFile := ThrottleAdditionalFlagFile this;
     MaxLoad := MaxLoad this;
     PostponeSwapTablesFlagFile := PostponeSwapTablesFlagFile this;
     SwapTablesTimeoutSeconds := SwapTablesTimeoutSeconds this;
     Noop := Noop this;
     TestOnReplica := TestOnReplica this;
     OkToDropTable := OkToDropTable this;
     InitiallyDropOldTable := InitiallyDropOldTable this;
     InitiallyDropGhostTable := InitiallyDropGhostTable this;
     CutOverType := CutOverType this;
     TableEngine := TableEngine this;
     RowsEstimate := RowsEstimate this;
     UsedRowsEstimateMethod := UsedRowsEstimateMethod this;
     OriginalBinlogFormat := OriginalBinlogFormat this;
     OriginalBinlogRowImage := OriginalBinlogRowImage this;
     InspectorConnectionConfig := InspectorConnectionConfig this;
     ApplierConnectionConfig := ApplierConnectionConfig this;
     StartTime := StartTime this;
     RowCopyStartTime := RowCopyStartTime this;
     LockTablesStartTime := LockTablesStartTime this;
     RenameTablesStartTime := RenameTablesStartTime this;
     RenameTablesEndTime := RenameTablesEndTime this;
     pointOfInterestTime := pointOfInterestTime this;
     pointOfInterestTimeMutex := pointOfInterestTimeMutex this;
     CurrentLag := CurrentLag this;
     TotalRowsCopied := TotalRowsCopied this;
     TotalDMLEventsApplied := TotalDMLEventsApplied this;
     isThrottled := isThrottled this;
     throttleReason := throttleReason this;
     throttleMutex := throttleMutex this;
     OriginalTableColumns := OriginalTableColumns this;
     OriginalTableUniqueKeys := OriginalTableUniqueKeys this;
     GhostTableColumns := GhostTableColumns this;
     GhostTableUniqueKeys := GhostTableUniqueKeys this;
     UniqueKey := UniqueKey this;
     SharedColumns := SharedColumns this;
     MigrationRangeMinValues := MigrationRangeMinValues this;
     MigrationRangeMaxValues := MigrationRangeMaxValues this;
     Iteration := Iteration this;
     MigrationIterationRangeMinValues := MigrationIterationRangeMinValues this;
     MigrationIterationRangeMaxValues := MigrationIterationRangeMaxValues this;
     CanStopStreaming := CanStopStreaming this |}.

(** The assignment [this.OriginalBinlogFormat = format]. *)
Definition set_OriginalBinlogFormat (this : MigrationContext) (format : string)
  : MigrationContext :=
  {| DatabaseName := DatabaseName this;
     OriginalTableName := OriginalTableName this;
     AlterStatement := AlterStatement this;
     CountTableRows := CountTableRows this;
     AllowedRunningOnMaster := AllowedRunningOnMaster this;
     SwitchToRowBinlogFormat := SwitchToRowBinlogFormat this;
     NullableUniqueKeyAllowed := NullableUniqueKeyAllowed this;
     config := config this;
     configMutex := configMutex this;
     ConfigFile := ConfigFile this;
     CliUser := CliUser this;
     CliPassword := CliPassword this;
     ChunkSize := ChunkSize this;
     MaxLagMillisecondsThrottleThreshold := MaxLagMillisecondsThrottleThreshold this;
     ReplictionLagQuery := ReplictionLagQuery this;
     ThrottleControlReplicaKeys := ThrottleControlReplicaKeys this;
     ThrottleFlagFile := ThrottleFlagFile this;
     ThrottleAdditionalFlagFile := ThrottleAdditionalFlagFile this;
     MaxLoad := MaxLoad this;
     PostponeSwapTablesFlagFile := PostponeSwapTablesFlagFile this;
     SwapTablesTimeoutSeconds := SwapTablesTimeoutSeconds this;
     Noop := Noop this;
     TestOnReplica := TestOnReplica this;
     OkToDropTable := OkToDropTable this;
     InitiallyDropOldTable := InitiallyDropOldTable this;
     InitiallyDropGhostTable := InitiallyDropGhostTable this;
     CutOverType := CutOverType this;
     TableEngine := TableEngine this;
     RowsEstimate := RowsEstimate this;
     UsedRowsEstimateMethod := UsedRowsEstimateMethod this;
     OriginalBinlogFormat := format;
     OriginalBinlogRowImage := OriginalBinlogRowImage this;
     InspectorConnectionConfig := InspectorConnectionConfig this;
     ApplierConnectionConfig := ApplierConnectionConfig this;
     StartTime := StartTime this;
     RowCopyStartTime := RowCopyStartTime this;
     LockTablesStartTime := LockTablesStartTime this;
     RenameTablesStartTime := RenameTablesStartTime this;
     RenameTablesEndTime := RenameTablesEndTime this;
     pointOfInterestTime := pointOfInterestTime this;
     pointOfInterestTimeMutex := pointOfInterestTimeMutex this;
     CurrentLag := CurrentLag this;
     TotalRowsCopied := TotalRowsCopied this;
     TotalDMLEventsApplied := TotalDMLEventsApplied this;
     isThrottled := isThrottled this;
     throttleReason := throttleReason this;
     throttleMutex := throttleMutex this;
     OriginalTableColumns := OriginalTableColumns this;
     OriginalTableUniqueKeys := OriginalTableUniqueKeys this;
     GhostTableColumns := GhostTableColumns this;
     GhostTableUniqueKeys := GhostTableUniqueKeys this;
     UniqueKey := UniqueKey this;
     SharedColumns := SharedColumns this;
     MigrationRangeMinValues := MigrationRangeMinValues this;
     MigrationRangeMaxValues := MigrationRangeMaxValues this;
     Iteration := Iteration this;
     MigrationIterationRangeMinValues := MigrationIterationRangeMinValues this;
     MigrationIterationRangeMaxValues := MigrationIterationRangeMaxValues this;
     CanStopStreaming := CanStopStreaming this |}.


(** The assignment [this.TableEngine = engine]. *)
Definition set_TableEngine (this : MigrationContext) (engine : string)
  : MigrationContext :=
  {| DatabaseName := DatabaseName this;
     OriginalTableName := OriginalTableName this;
     AlterStatement := AlterStatement this;
     CountTableRows := CountTableRows this;
     AllowedRunningOnMaster := AllowedRunningOnMaster this;
     SwitchToRowBinlogFormat := SwitchToRowBinlogFormat this;
     NullableUniqueKeyAllowed := NullableUniqueKeyAllowed this;
     config := config this;
     configMutex := configMutex this;
     ConfigFile := ConfigFile this;
     CliUser := CliUser this;
     CliPassword := CliPassword this;
     ChunkSize := ChunkSize this;
     MaxLagMillisecondsThrottleThreshold := MaxLagMillisecondsThrottleThreshold this;
     ReplictionLagQuery := ReplictionLagQuery this;
     ThrottleControlReplicaKeys := ThrottleControlReplicaKeys this;
     ThrottleFlagFile := ThrottleFlagFile this;
     ThrottleAdditionalFlagFile := ThrottleAdditionalFlagFile this;
     MaxLoad := MaxLoad this;
     PostponeSwapTablesFlagFile := PostponeSwapTablesFlagFile this;
     SwapTablesTimeoutSeconds := SwapTablesTimeoutSeconds this;
     Noop := Noop this;
     TestOnReplica := TestOnReplica this;
     OkToDropTable := OkToDropTable this;
     InitiallyDropOldTable := InitiallyDropOldTable this;
     InitiallyDropGhostTable := InitiallyDropGhostTable this;
     CutOverType := CutOverType this;
     TableEngine := engine;
     RowsEstimate := RowsEstimate this;
     UsedRowsEstimateMethod := UsedRowsEstimateMethod this;
     OriginalBinlogFormat := OriginalBinlogFormat this;
     OriginalBinlogRowImage := OriginalBinlogRowImage this;
     InspectorConnectionConfig := InspectorConnectionConfig this;
     ApplierConnectionConfig := ApplierConnectionConfig this;
     StartTime := StartTime this;
     RowCopyStartTime := RowCopyStartTime this;
     LockTablesStartTime := LockTablesStartTime this;
     RenameTablesStartTime := RenameTablesStartTime this;
     RenameTablesEndTime := RenameTablesEndTime this;
     pointOfInterestTime := pointOfInterestTime this;
     pointOfInterestTimeMutex := pointOfInterestTimeMutex this;
     CurrentLag := CurrentLag this;
     TotalRowsCopied := TotalRowsCopied this;
     TotalDMLEventsApplied := TotalDMLEventsApplied this;
     isThrottled := isThrottled this;
     throttleReason := throttleReason this;
     throttleMutex := throttleMutex this;
     OriginalTableColumns := OriginalTableColumns this;
     OriginalTableUniqueKeys := OriginalTableUniqueKeys this;
     GhostTableColumns := GhostTableColumns this;
     GhostTableUniqueKeys := GhostTableUniqueKeys this;
     UniqueKey := UniqueKey this;
     SharedColumns := SharedColumns this;
     MigrationRangeMinValues := MigrationRangeMinValues this;
     MigrationRangeMaxValues := MigrationRangeMaxValues this;
     Iteration := Iteration this;
     MigrationIterationRangeMinValues := MigrationIterationRangeMinValues this;
     MigrationIterationRangeMaxValues := MigrationIterationRangeMaxValues this;
     CanStopStreaming := CanStopStreaming this |}.

(** ** The max-load syntax, in the words of the specification

    A max-load string is a comma-separated list of [variable=integer]
    pairs.  These definitions say what that means without reference to
    [ReadMaxLoad]; the theorems compare the two. *)

Module Syntax.

(** The number of occurrences of a byte. *)
Fixpoint count_byte (c : ascii) (s : string) : nat :=
  match s with
  | EmptyString => O
  | String a rest => (if Ascii.eqb a c then 1 else 0)%nat + count_byte c rest
  end.

(** What stands before, and after, the first occurrence of a byte. *)
Fixpoint before (c : ascii) (s : string) : string :=
  match s with
  | EmptyString => ""
  | String a rest => if Ascii.eqb a c then "" else String a (before c rest)
  end.

Fixpoint after (c : ascii) (s : string) : string :=
  match s with
  | EmptyString => ""
  | String a rest => if Ascii.eqb a c then rest else after c rest
  end.

Definition is_digit (c : ascii) : bool :=
  let b := Z.of_N (N_of_ascii c) in (48 <=? b) && (b <=? 57).

Fixpoint all_digits (s : string) : bool :=
  match s with
  | EmptyString => true
  | String c rest => is_digit c && all_digits rest
  end.

(** A decimal integer: an optional sign, then one digit or more. *)
Definition unsigned_part (s : string) : string :=
  match s with
  | String c rest => if Ascii.eqb c "+" || Ascii.eqb c "-" then rest else s
  | EmptyString => ""
  end.

Definition is_negative (s : string) : bool :=
  match s with
  | String c _ => Ascii.eqb c "-"
  | EmptyString => false
  end.

Definition is_decimal_integer (s : string) : bool :=
  negb (String.eqb (unsigned_part s) "") && all_digits (unsigned_part s).

Fixpoint digits_value (s : string) (acc : Z) : Z :=
  match s with
  | EmptyString => acc
  | String c rest => digits_value rest (acc * 10 + (Z.of_N (N_of_ascii c) - 48))
  end.

Definition decimal_value (s : string) : Z :=
  let v := digits_value (unsigned_part s) 0 in
  if is_negative s then - v else v.

(** The values of an [int64]. *)
Definition fits_int64 (z : Z) : bool :=
  (- 2 ^ 63 <=? z) && (z <? 2 ^ 63).

(** The variable and the value of a condition [variable=value]. *)
Definition variable (cond : string) : string := before "=" cond.
Definition value (cond : string) : string := after "=" cond.

(** The three ways a condition can be malformed. *)
Definition lacks_one_equals (cond : string) : bool :=
  negb (Nat.eqb (count_byte "=" cond) 1).
Definition empty_variable (cond : string) : bool :=
  String.eqb (variable cond) "".
Definition non_integer_value (cond : string) : bool :=
  negb (is_decimal_integer (value cond)).

Definition malformed_condition (cond : string) : bool :=
  lacks_one_equals cond || empty_variable cond || non_integer_value cond.

(** A [variable=integer] pair with a non-empty variable. *)
Definition is_pair (cond : string) : bool :=
  Nat.eqb (count_byte "=" cond) 1
  && negb (String.eqb (variable cond) "")
  && is_decimal_integer (value cond).

(** A pair whose integer is a value of the map's [int64]. *)
Definition readable (cond : string) : bool :=
  is_pair cond && fits_int64 (decimal_value (value cond)).

(** The conditions of a max-load string; the empty string has none. *)
Definition conditions (maxLoadList : string) : list string :=
  if String.eqb maxLoadList "" then [] else strings.Split maxLoadList ",".

Definition malformed (maxLoadList : string) : bool :=
  existsb malformed_condition (conditions maxLoadList).

Definition valid_as_stated (maxLoadList : string) : bool :=
  forallb is_pair (conditions maxLoadList).

Definition valid (maxLoadList : string) : bool :=
  forallb readable (conditions maxLoadList).

(** The mapping that corresponds to a list of conditions, on top of the
    entries [m] that are already there: each condition binds its variable
    to its value, a later one replacing an earlier one. *)
Definition bind (m : gmap string Z) (cond : string) : gmap string Z :=
  <[variable cond := decimal_value (value cond)]> m.

Definition mapping (conds : list string) (m : gmap string Z) : gmap string Z :=
  foldl bind m conds.

(** No variable is given two different values. *)
Definition consistent (conds : list string) : Prop :=
  ∀ c1 c2, c1 ∈ conds → c2 ∈ conds → variable c1 = variable c2 →
           decimal_value (value c1) = decimal_value (value c2).

(** The message of the error that [ReadMaxLoad] returns for a condition
    it cannot read. *)
Definition complaint (cond : string) : string :=
  (if lacks_one_equals cond then "Error parsing max-load condition: "
   else if empty_variable cond
        then "Error parsing status variable in max-load condition: "
        else "Error parsing numeric value in max-load condition: ")
  +:+ cond.

(** A max-load string written out from its pairs: [items] separated by
    [sep], and the pair [variable=integer]. *)
Fixpoint separated (items : list string) (sep : ascii) : string :=
  match items with
  | [] => ""
  | x :: rest =>
      match rest with
      | [] => x
      | _ => x +:+ String sep (separated rest sep)
      end
  end.

Definition pair (p : string * string) : string := p.1 +:+ String "=" p.2.

(** A non-empty variable without [=] and [,], and a decimal integer that
    fits an [int64]. *)
Definition well_formed (p : string * string) : bool :=
  negb (String.eqb p.1 "")
  && Nat.eqb (count_byte "=" p.1) 0 && Nat.eqb (count_byte "," p.1) 0
  && is_decimal_integer p.2 && fits_int64 (decimal_value p.2).

Definition assign (m : gmap string Z) (p : string * string) : gmap string Z :=
  <[p.1 := decimal_value p.2]> m.

(** The conditions that stand before the first one that is not readable,
    and the error for that one, if there is one. *)
Fixpoint readable_prefix (conds : list string) : list string :=
  match conds with
  | [] => []
  | c :: rest => if readable c then c :: readable_prefix rest else []
  end.

Fixpoint verdict (conds : list string) : Go.error :=
  match conds with
  | [] => None
  | c :: rest => if readable c then verdict rest else Some (complaint c)
  end.

(** The value that the last condition for variable [k] gives it. *)
Fixpoint last_value (k : string) (conds : list string) : option Z :=
  match conds with
  | [] => None
  | c :: rest =>
      match last_value k rest with
      | Some v => Some v
      | None => if String.eqb (variable c) k
                then Some (decimal_value (value c)) else None
      end
  end.

End Syntax.

(** ** The layering of the credentials, in the words of the specification *)

(** The inspector's configuration once the file settings and then the
    command-line values have been laid over [c]: a command-line value wins
    over the value of the file, which wins over what was there. *)
Definition layered (this : MigrationContext) (c : mysql.ConnectionConfig)
  : mysql.ConnectionConfig :=
  {| mysql.Hostname := mysql.Hostname c;
     mysql.Port := mysql.Port c;
     mysql.User :=
       if negb (String.eqb (CliUser this) "") then CliUser this
       else if negb (String.eqb (Client.User (Client (config this))) "")
            then Client.User (Client (config this))
            else mysql.User c;
     mysql.Password :=
       if negb (String.eqb (CliPassword this) "") then CliPassword this
       else if negb (String.eqb (Client.Password (Client (config this))) "")
            then Client.Password (Client (config this))
            else mysql.Password c |}.

(** Two heaps that hold the same objects, but possibly at [p]. *)
Definition same_elsewhere (p : ptr) (h h' : Heap) : Prop :=
  List.length h' = List.length h ∧ ∀ q, q ≠ p → load q h' = load q h.

(** ** Contexts used in the examples *)

(** The context of a process that has just started, on an empty heap. *)
Definition freshContext : MigrationContext := fst (newMigrationContext []).
Definition freshHeap : Heap := snd (newMigrationContext []).

(** The command line names the user [root]; the file names [ghost] with a
    password. *)
Definition cliContext : MigrationContext :=
  set_credentials freshContext "ghost" "secret" "root" "".

(** The same, after [this.ApplierConnectionConfig =
    this.InspectorConnectionConfig]: one object serves both roles. *)
Definition aliasedContext : MigrationContext :=
  set_ApplierConnectionConfig cliContext (InspectorConnectionConfig cliContext).

Definition usersContext : MigrationContext :=
  set_table freshContext "shop" "users".

(** * Properties *)

(** ** [strings.Split] *)

Section Split.
Import strings Syntax.
Variable sep : ascii.

Lemma Split_length (s : string) :
  List.length (Split s sep) = S (count_byte sep s).
Proof.
  induction s as [|c rest IH]; simpl; [reflexivity|].
  destruct (Ascii.eqb c sep); simpl; [now rewrite IH|].
  destruct (Split rest sep); simpl in *; lia.
Qed.

Lemma Split_no_sep (s : string) :
  count_byte sep s = O → Split s sep = [s].
Proof.
  induction s as [|c rest IH]; simpl; [reflexivity|].
  destruct (Ascii.eqb c sep); simpl; [discriminate|].
  intros H. now rewrite IH.
Qed.

Lemma before_no_sep (s : string) :
  count_byte sep s = O → before sep s = s.
Proof.
  induction s as [|c rest IH]; simpl; [reflexivity|].
  destruct (Ascii.eqb c sep); simpl; [discriminate|].
  intros H. now rewrite IH.
Qed.

(** The first piece is what stands before the first separator; the other
    pieces are those of what stands after it. *)
Lemma Split_unfold (s : string) :
  Split s sep =
  before sep s ::
    (if Nat.eqb (count_byte sep s) 0 then [] else Split (after sep s) sep).
Proof.
  induction s as [|c rest IH]; simpl; [reflexivity|].
  destruct (Ascii.eqb c sep); simpl; [reflexivity|].
  now rewrite IH.
Qed.

Lemma count_after (s : string) :
  count_byte sep (after sep s) = Nat.pred (count_byte sep s).
Proof.
  induction s as [|c rest IH]; simpl; [reflexivity|].
  destruct (Ascii.eqb c sep); simpl; [reflexivity|exact IH].
Qed.

Lemma Split_one_sep (s : string) :
  count_byte sep s = 1%nat → Split s sep = [before sep s; after sep s].
Proof.
  intros H. rewrite Split_unfold, H. simpl.
  rewrite Split_no_sep; [reflexivity|].
  now rewrite count_after, H.
Qed.

End Split.

(** ** [strconv.ParseInt] reads the decimal integers that fit *)

Section ParseInt.
Import strconv Syntax.

Lemma digit_is_digit (c : ascii) :
  digit c = if is_digit c then Some (Z.of_N (N_of_ascii c) - 48) else None.
Proof. reflexivity. Qed.

Lemma is_digit_range (c : ascii) :
  is_digit c = true → 0 <= Z.of_N (N_of_ascii c) - 48 <= 9.
Proof. unfold is_digit. cbv zeta. lia. Qed.

Lemma digits_value_ge (s : string) (acc : Z) :
  all_digits s = true → 0 <= acc → acc <= digits_value s acc.
Proof.
  revert acc. induction s as [|c rest IH]; simpl; intros acc Hd Hacc; [lia|].
  apply andb_true_iff in Hd as [Hc Hrest].
  pose proof (is_digit_range c Hc).
  specialize (IH (acc * 10 + (Z.of_N (N_of_ascii c) - 48)) Hrest). lia.
Qed.

(** The loop either reads the whole value, or stops on a byte that is no
    digit, or stops because the value exceeds [maxVal]. *)
Lemma ParseUint_loop_spec (s : string) (maxVal n : Z) :
  0 <= n <= maxVal → maxVal <= maxUint64 →
  if all_digits s && (digits_value s n <=? maxVal)
  then ParseUint_loop s maxVal n = (digits_value s n, None)
  else ParseUint_loop s maxVal n = (0, Some ErrSyntax)
       ∨ ParseUint_loop s maxVal n = (maxVal, Some ErrRange).
Proof.
  revert n. induction s as [|c rest IH]; intros n Hn Hmax.
  - simpl. destruct (Z.leb_spec n maxVal); [reflexivity|lia].
  - simpl. rewrite digit_is_digit.
    destruct (is_digit c) eqn:Hc; simpl; [|now left].
    pose proof (is_digit_range c Hc) as Hd.
    set (d := Z.of_N (N_of_ascii c) - 48) in *.
    unfold maxUint64 in *.
    change (2 ^ 64 - 1) with 18446744073709551615 in *.
    change ((18446744073709551615) / 10 + 1) with 1844674407370955162.
    destruct (Z.geb_spec n 1844674407370955162) as [Hcut|Hcut].
    + assert (all_digits rest && (digits_value rest (n * 10 + d) <=? maxVal)
              = false) as ->; [|now right].
      destruct (all_digits rest) eqn:Hr; [|reflexivity]. simpl.
      pose proof (digits_value_ge rest (n * 10 + d) Hr). lia.
    + unfold uint64. change (2 ^ 64) with 18446744073709551616.
      rewrite (Z.mod_small (n * 10)) by lia.
      destruct (Z_lt_ge_dec (n * 10 + d) 18446744073709551616) as [Hs|Hw].
      * rewrite (Z.mod_small (n * 10 + d)) by lia.
        destruct (Z.ltb_spec (n * 10 + d) (n * 10)); [lia|]. simpl.
        destruct (Z.gtb_spec (n * 10 + d) maxVal) as [Hgt|Hle].
        -- assert (all_digits rest && (digits_value rest (n * 10 + d) <=? maxVal)
                   = false) as ->; [|now right].
           destruct (all_digits rest) eqn:Hr; [|reflexivity]. simpl.
           pose proof (digits_value_ge rest (n * 10 + d) Hr). lia.
        -- apply IH; lia.
      * assert ((n * 10 + d) mod 18446744073709551616
                = n * 10 + d - 18446744073709551616) as ->.
        { symmetry. apply Z.mod_unique with (q := 1); lia. }
        destruct (Z.ltb_spec (n * 10 + d - 18446744073709551616) (n * 10));
          [|lia]. simpl.
        assert (all_digits rest && (digits_value rest (n * 10 + d) <=? maxVal)
                = false) as ->; [|now right].
        destruct (all_digits rest) eqn:Hr; [|reflexivity]. simpl.
        pose proof (digits_value_ge rest (n * 10 + d) Hr). lia.
Qed.

Lemma ParseUint_spec (u : string) :
  if negb (String.eqb u "") && all_digits u && (digits_value u 0 <=? maxUint64)
  then ParseUint u 0 = (digits_value u 0, None)
  else ParseUint u 0 = (0, Some ErrSyntax)
       ∨ ParseUint u 0 = (maxUint64, Some ErrRange).
Proof.
  destruct u as [|c rest]; [now left|].
  change (negb (String.eqb (String c rest) "")) with true.
  change (ParseUint (String c rest) 0)
    with (ParseUint_loop (String c rest) maxUint64 0).
  rewrite andb_true_l.
  apply ParseUint_loop_spec; unfold maxUint64; lia.
Qed.

Lemma int64_small (z : Z) : - 2 ^ 63 <= z < 2 ^ 63 → int64 z = z.
Proof.
  intros H. unfold int64.
  change (2 ^ 64) with 18446744073709551616 in *.
  change (2 ^ 63) with 9223372036854775808 in *.
  rewrite Z.mod_small; lia.
Qed.

(** [ParseInt] returns the value of a decimal integer that fits an
    [int64], and an error for every other string. *)
Lemma ParseInt_spec (s : string) :
  if is_decimal_integer s && fits_int64 (decimal_value s)
  then ParseInt s 0 = (decimal_value s, None)
  else ∃ v e, ParseInt s 0 = (v, Some e).
Proof.
  destruct s as [|c rest]; [simpl; eauto|].
  unfold is_decimal_integer, decimal_value, fits_int64, ParseInt.
  cbn [unsigned_part is_negative].
  set (u := if Ascii.eqb c "+" || Ascii.eqb c "-" then rest else String c rest).
  change (Z.eqb 0 0) with true. cbv iota.
  change (uint64 (Z.shiftl 1 (IntSize - 1))) with 9223372036854775808.
  change (int64 (9223372036854775808 - 1)) with 9223372036854775807.
  change (int64 (- int64 9223372036854775808)) with (-9223372036854775808).
  change (- 2 ^ 63) with (-9223372036854775808).
  change (2 ^ 63) with 9223372036854775808.
  pose proof (ParseUint_spec u) as HU.
  destruct (negb (String.eqb u "") && all_digits u) eqn:Hsyn.
  - (* the digits are there *)
    assert (0 <= digits_value u 0) as Hpos.
    { apply andb_true_iff in Hsyn as [_ Hd].
      now apply digits_value_ge. }
    rewrite andb_true_l in HU. rewrite andb_true_l.
    unfold maxUint64 in HU. change (2 ^ 64 - 1) with 18446744073709551615 in HU.
    set (v := digits_value u 0) in *.
    destruct (Z.leb_spec v 18446744073709551615) as [Hfit|Hbig].
    + rewrite HU.
      destruct (Ascii.eqb c "-") eqn:Hneg; cbn [negb andb].
      * destruct (Z.gtb_spec v 9223372036854775808) as [Hgt|Hle].
        -- destruct (Z.leb_spec (-9223372036854775808) (- v)); [lia|].
           simpl. eauto.
        -- destruct (Z.leb_spec (-9223372036854775808) (- v)); [|lia].
           destruct (Z.ltb_spec (- v) 9223372036854775808); [|lia].
           simpl. f_equal.
           destruct (Z.eq_dec v 9223372036854775808) as [->|Hne];
             [reflexivity|].
           rewrite (int64_small v) by (change (2 ^ 63) with 9223372036854775808; lia).
           apply int64_small. change (2 ^ 63) with 9223372036854775808. lia.
      * destruct (Z.geb_spec v 9223372036854775808) as [Hge|Hlt].
        -- destruct (Z.ltb_spec v 9223372036854775808); [lia|].
           rewrite andb_false_r. eauto.
        -- destruct (Z.leb_spec (-9223372036854775808) v); [|lia].
           destruct (Z.ltb_spec v 9223372036854775808); [|lia].
           simpl. f_equal. apply int64_small.
           change (2 ^ 63) with 9223372036854775808. lia.
    + assert (((if Ascii.eqb c "-" then - v else v) <? 9223372036854775808) = false
              ∨ (-9223372036854775808 <=? (if Ascii.eqb c "-" then - v else v)) = false)
        as Hout.
      { destruct (Ascii.eqb c "-"); [right|left]; lia. }
      assert ((-9223372036854775808 <=? (if Ascii.eqb c "-" then - v else v))
              && ((if Ascii.eqb c "-" then - v else v) <? 9223372036854775808)
              = false) as ->.
      { destruct Hout as [-> | ->]; [apply andb_false_r|reflexivity]. }
      destruct HU as [-> | ->]; [eauto|].
      unfold maxUint64. change (2 ^ 64 - 1) with 18446744073709551615.
      destruct (Ascii.eqb c "-"); simpl; eauto.
  - (* no digits, or a byte that is no digit *)
    simpl in HU. simpl.
    destruct HU as [-> | ->]; [eauto|].
    unfold maxUint64. change (2 ^ 64 - 1) with 18446744073709551615.
    destruct (Ascii.eqb c "-"); simpl; eauto.
Qed.

End ParseInt.

(** ** What [ReadMaxLoad] computes *)

Section ReadMaxLoad.
Import Syntax.

Lemma MaxLoad_set_MaxLoad (this : MigrationContext) (m : gmap string Z) :
  MaxLoad (set_MaxLoad this m) = m.
Proof. reflexivity. Qed.

Lemma set_MaxLoad_twice (this : MigrationContext) (m1 m2 : gmap string Z) :
  set_MaxLoad (set_MaxLoad this m1) m2 = set_MaxLoad this m2.
Proof. reflexivity. Qed.

Lemma set_MaxLoad_same (this : MigrationContext) :
  set_MaxLoad this (MaxLoad this) = this.
Proof. destruct this; reflexivity. Qed.

Lemma append_empty_r (s : string) : s +:+ "" = s.
Proof.
  induction s as [|c rest IH]; [reflexivity|].
  change (String c (rest +:+ "") = String c rest). now rewrite IH.
Qed.

(** One turn of the loop: a readable condition is assigned and the loop
    goes on; any other condition ends the call with its complaint. *)
Lemma ReadMaxLoad_loop_step (c : string) (rest : list string)
    (this : MigrationContext) :
  ReadMaxLoad_loop (c :: rest) this =
  if readable c
  then ReadMaxLoad_loop rest (set_MaxLoad this (bind (MaxLoad this) c))
  else (Some (complaint c), this).
Proof.
  unfold readable, is_pair, complaint, lacks_one_equals, empty_variable, bind.
  cbn [ReadMaxLoad_loop]. cbv zeta.
  rewrite Split_length.
  destruct (Nat.eqb (count_byte "=" c) 1) eqn:Hone.
  - apply Nat.eqb_eq in Hone.
    rewrite (Split_one_sep _ _ Hone), Hone.
    cbn [Nat.eqb negb nth andb].
    fold (variable c). fold (value c).
    destruct (String.eqb (variable c) "") eqn:Hvar; cbn [negb andb].
    + unfold Go.Errorf. simpl. now rewrite append_empty_r.
    + pose proof (ParseInt_spec (value c)) as HP.
      destruct (is_decimal_integer (value c)); cbn [andb] in *.
      * destruct (fits_int64 (decimal_value (value c))).
        -- now rewrite HP.
        -- destruct HP as (v & e & ->).
           unfold Go.Errorf. simpl. now rewrite append_empty_r.
      * destruct HP as (v & e & ->).
        unfold Go.Errorf. simpl. now rewrite append_empty_r.
  - assert (Nat.eqb (S (count_byte "=" c)) 2 = false) as ->.
    { apply Nat.eqb_neq. apply Nat.eqb_neq in Hone. lia. }
    cbn [negb andb]. unfold Go.Errorf. simpl. now rewrite append_empty_r.
Qed.

Lemma ReadMaxLoad_loop_spec (conds : list string) (this : MigrationContext) :
  ReadMaxLoad_loop conds this =
  (verdict conds,
   set_MaxLoad this (mapping (readable_prefix conds) (MaxLoad this))).
Proof.
  revert this. induction conds as [|c rest IH]; intros this.
  - simpl. now rewrite set_MaxLoad_same.
  - rewrite ReadMaxLoad_loop_step. cbn [verdict readable_prefix].
    destruct (readable c).
    + rewrite IH. reflexivity.
    + simpl. now rewrite set_MaxLoad_same.
Qed.

(** [ReadMaxLoad] assigns the conditions up to the first one that it
    cannot read, and returns the complaint about that one. *)
Lemma ReadMaxLoad_spec (this : MigrationContext) (maxLoadList : string) :
  ReadMaxLoad this maxLoadList =
  (verdict (conditions maxLoadList),
   set_MaxLoad this
     (mapping (readable_prefix (conditions maxLoadList)) (MaxLoad this))).
Proof.
  unfold ReadMaxLoad, conditions.
  destruct (String.eqb maxLoadList "").
  - simpl. now rewrite set_MaxLoad_same.
  - apply ReadMaxLoad_loop_spec.
Qed.

End ReadMaxLoad.

(** ** The mapping of a list of conditions *)

Section Mapping.
Import Syntax.

Lemma mapping_lookup (conds : list string) (m : gmap string Z) (k : string) :
  mapping conds m !! k =
  match last_value k conds with
  | Some v => Some v
  | None => m !! k
  end.
Proof.
  revert m. induction conds as [|c rest IH]; intros m; [reflexivity|].
  change (mapping (c :: rest) m) with (mapping rest (bind m c)).
  rewrite IH. cbn [last_value].
  destruct (last_value k rest); [reflexivity|].
  unfold bind.
  destruct (String.eqb (variable c) k) eqn:E.
  - apply String.eqb_eq in E. subst k. apply lookup_insert_eq.
  - apply String.eqb_neq in E. now apply lookup_insert_ne.
Qed.

Lemma mapping_twice (conds : list string) (m : gmap string Z) :
  mapping conds (mapping conds m) = mapping conds m.
Proof.
  apply map_eq. intros k. rewrite !mapping_lookup.
  now destruct (last_value k conds).
Qed.

Lemma last_value_Some (k : string) (conds : list string) (v : Z) :
  last_value k conds = Some v →
  ∃ c, c ∈ conds ∧ variable c = k ∧ decimal_value (value c) = v.
Proof.
  induction conds as [|c rest IH]; [discriminate|].
  cbn [last_value]. destruct (last_value k rest) as [w|].
  - intros [= <-]. destruct (IH eq_refl) as (c' & Hin & Hk & Hv).
    exists c'. split; [now right|auto].
  - destruct (String.eqb (variable c) k) eqn:E; [|discriminate].
    intros [= <-]. apply String.eqb_eq in E.
    exists c. split; [now left|auto].
Qed.

Lemma last_value_None (k : string) (conds : list string) :
  last_value k conds = None → ∀ c, c ∈ conds → variable c ≠ k.
Proof.
  induction conds as [|c rest IH]; intros H c' Hin.
  - inversion Hin.
  - cbn [last_value] in H. destruct (last_value k rest) as [w|]; [discriminate|].
    destruct (String.eqb (variable c) k) eqn:E; [discriminate|].
    apply String.eqb_neq in E.
    inversion Hin; subst; [exact E|now apply IH].
Qed.

(** Conditions that give no variable two values may come in any order. *)
Lemma mapping_Permutation (l1 l2 : list string) (m : gmap string Z) :
  l1 ≡ₚ l2 → consistent l1 → mapping l1 m = mapping l2 m.
Proof.
  intros Hperm Hcons. apply map_eq. intros k. rewrite !mapping_lookup.
  destruct (last_value k l1) as [v1|] eqn:E1;
    destruct (last_value k l2) as [v2|] eqn:E2; [| | |reflexivity].
  - apply last_value_Some in E1 as (c1 & Hin1 & Hk1 & Hv1).
    apply last_value_Some in E2 as (c2 & Hin2 & Hk2 & Hv2).
    rewrite <- Hperm in Hin2.
    f_equal. rewrite <- Hv1, <- Hv2. apply Hcons; congruence.
  - apply last_value_Some in E1 as (c1 & Hin1 & Hk1 & Hv1).
    rewrite Hperm in Hin1.
    now destruct (last_value_None _ _ E2 c1 Hin1).
  - apply last_value_Some in E2 as (c2 & Hin2 & Hk2 & Hv2).
    rewrite <- Hperm in Hin2.
    now destruct (last_value_None _ _ E1 c2 Hin2).
Qed.

Lemma count_byte_append (c : ascii) (x y : string) :
  count_byte c (x +:+ y) = (count_byte c x + count_byte c y)%nat.
Proof.
  induction x as [|a x IH]; [reflexivity|].
  change (String a x +:+ y) with (String a (x +:+ y)).
  cbn [count_byte]. rewrite IH. lia.
Qed.

Lemma before_after_append (c : ascii) (x y : string) :
  count_byte c x = O →
  before c (x +:+ String c y) = x ∧ after c (x +:+ String c y) = y.
Proof.
  induction x as [|a x IH].
  - intros _. change ("" +:+ String c y) with (String c y).
    cbn [before after]. now rewrite Ascii.eqb_refl.
  - change (String a x +:+ String c y) with (String a (x +:+ String c y)).
    cbn [count_byte before after].
    destruct (Ascii.eqb a c); [discriminate|].
    intros H. destruct (IH H) as [-> ->]. now split.
Qed.

Lemma Split_append (sep : ascii) (x y : string) :
  count_byte sep x = O →
  strings.Split (x +:+ String sep y) sep = x :: strings.Split y sep.
Proof.
  induction x as [|a x IH].
  - intros _. change ("" +:+ String sep y) with (String sep y).
    cbn [strings.Split]. now rewrite Ascii.eqb_refl.
  - change (String a x +:+ String sep y) with (String a (x +:+ String sep y)).
    cbn [count_byte strings.Split].
    destruct (Ascii.eqb a sep); [discriminate|].
    intros H. now rewrite (IH H).
Qed.

Lemma Split_separated (sep : ascii) (items : list string) :
  Forall (λ x, count_byte sep x = O) items → items ≠ [] →
  strings.Split (separated items sep) sep = items.
Proof.
  induction 1 as [|x rest Hx Hrest IH]; [congruence|]. intros _.
  destruct rest as [|y rest].
  - now apply Split_no_sep.
  - change (separated (x :: y :: rest) sep)
      with (x +:+ String sep (separated (y :: rest) sep)).
    rewrite (Split_append _ _ _ Hx). f_equal. now apply IH.
Qed.

Lemma conditions_separated (items : list string) :
  Forall (λ x, count_byte "," x = O) items → Forall (λ x, x ≠ "") items →
  conditions (separated items ",") = items.
Proof.
  intros Hsep Hne. unfold conditions.
  destruct items as [|x rest]; [reflexivity|].
  assert (separated (x :: rest) "," ≠ "") as Hs.
  { inversion Hne as [|? ? Hx _]; subst.
    destruct x as [|a x]; [congruence|]. now destruct rest. }
  apply String.eqb_neq in Hs. rewrite Hs.
  now apply Split_separated.
Qed.

Lemma all_digits_count (c : ascii) (s : string) :
  is_digit c = false → all_digits s = true → count_byte c s = O.
Proof.
  intros Hc. induction s as [|a s IH]; [reflexivity|].
  cbn [all_digits count_byte]. intros [Ha Hs]%andb_true_iff.
  destruct (Ascii.eqb_spec a c) as [->|_]; [congruence|]. now apply IH.
Qed.

Lemma is_decimal_integer_count (c : ascii) (v : string) :
  is_digit c = false → c ≠ "+"%char → c ≠ "-"%char →
  is_decimal_integer v = true → count_byte c v = O.
Proof.
  intros Hc Hplus Hminus [_ Hd]%andb_true_iff.
  destruct v as [|a v]; [reflexivity|].
  cbn [unsigned_part] in Hd. cbn [count_byte].
  destruct (Ascii.eqb_spec a "+") as [->|Hp];
    [|destruct (Ascii.eqb_spec a "-") as [->|Hm]]; cbn [orb] in Hd.
  - destruct (Ascii.eqb_spec "+" c); [congruence|].
    now apply all_digits_count.
  - destruct (Ascii.eqb_spec "-" c); [congruence|].
    now apply all_digits_count.
  - now apply (all_digits_count c (String a v)).
Qed.

(** A well-formed pair, written out, is a readable condition without comma,
    whose variable and value are those of the pair. *)
Lemma well_formed_pair (p : string * string) :
  well_formed p = true →
  readable (pair p) = true ∧ variable (pair p) = p.1 ∧ value (pair p) = p.2
  ∧ count_byte "," (pair p) = O ∧ pair p ≠ "".
Proof.
  destruct p as [name lit]. unfold well_formed. cbn [fst snd].
  intros [[[[Hname Heq]%andb_true_iff Hcomma]%andb_true_iff
             Hint]%andb_true_iff Hfit]%andb_true_iff.
  apply Nat.eqb_eq in Heq, Hcomma. apply negb_true_iff in Hname.
  destruct (before_after_append "=" name lit Heq) as [Hb Ha].
  unfold pair, variable, value. cbn [fst snd].
  split; [|split; [exact Hb|split; [exact Ha|split]]].
  - unfold readable, is_pair, variable, value.
    rewrite Hb, Ha, Hname, Hint, Hfit, count_byte_append, Heq.
    cbn [count_byte].
    rewrite (is_decimal_integer_count "=" lit eq_refl) by (discriminate || exact Hint).
    reflexivity.
  - rewrite count_byte_append, Hcomma. cbn [count_byte].
    rewrite (is_decimal_integer_count "," lit eq_refl) by (discriminate || exact Hint).
    reflexivity.
  - destruct name; [discriminate Hname|discriminate].
Qed.

Lemma mapping_pairs (pairs : list (string * string)) (m : gmap string Z) :
  forallb well_formed pairs = true →
  mapping (pair <$> pairs) m = foldl assign m pairs.
Proof.
  revert m. induction pairs as [|p rest IH]; intros m; [reflexivity|].
  cbn [forallb]. intros [Hp Hrest]%andb_true_iff.
  destruct (well_formed_pair p Hp) as (_ & Hvar & Hval & _).
  cbn [fmap list_fmap foldl]. unfold mapping in *. cbn [foldl].
  rewrite IH by exact Hrest. f_equal.
  unfold bind, assign. now rewrite Hvar, Hval.
Qed.

(** The string written out from well-formed pairs is valid, and its
    conditions are the pairs. *)
Lemma valid_separated (pairs : list (string * string)) :
  forallb well_formed pairs = true →
  conditions (separated (pair <$> pairs) ",") = pair <$> pairs
  ∧ valid (separated (pair <$> pairs) ",") = true.
Proof.
  intros H.
  assert (Forall (λ p, well_formed p = true) pairs) as HF.
  { apply Forall_forall. intros p Hp. rewrite forallb_forall in H.
    apply H. now apply list_elem_of_In. }
  assert (conditions (separated (pair <$> pairs) ",") = pair <$> pairs) as Hc.
  { apply conditions_separated; apply Forall_fmap;
      (eapply Forall_impl; [exact HF|]); intros p Hp;
      now destruct (well_formed_pair p Hp) as (_ & _ & _ & ? & ?). }
  split; [exact Hc|]. unfold valid. rewrite Hc.
  apply forallb_forall. intros c [p [-> Hp]]%list_elem_of_In%list_elem_of_fmap.
  rewrite Forall_forall in HF.
  now destruct (well_formed_pair p (HF p Hp)) as (? & _).
Qed.

Lemma readable_all (conds : list string) :
  forallb readable conds = true →
  verdict conds = None ∧ readable_prefix conds = conds.
Proof.
  induction conds as [|c rest IH]; [now split|].
  cbn [forallb verdict readable_prefix].
  destruct (readable c); [|discriminate].
  intros H. destruct (IH H) as [-> ->]. now split.
Qed.

(** The first condition that is not readable, and what stands before it. *)
Lemma readable_not_all (conds : list string) :
  forallb readable conds = false →
  ∃ pre bad post,
    conds = (pre ++ bad :: post)%list ∧ forallb readable pre = true ∧
    readable bad = false ∧
    verdict conds = Some (complaint bad) ∧ readable_prefix conds = pre.
Proof.
  induction conds as [|c rest IH]; [discriminate|].
  cbn [forallb verdict readable_prefix].
  destruct (readable c) eqn:Hc.
  - intros H. destruct (IH H) as (pre & bad & post & -> & Hpre & Hbad & Hv & Hp).
    exists (c :: pre), bad, post. cbn [forallb]. rewrite Hc, Hp. auto.
  - intros _. exists [], c, rest. auto.
Qed.

Lemma malformed_condition_not_readable (c : string) :
  malformed_condition c = true → readable c = false.
Proof.
  unfold malformed_condition, readable, is_pair, lacks_one_equals,
    empty_variable, non_integer_value.
  destruct (Nat.eqb (count_byte "=" c) 1), (String.eqb (variable c) ""),
    (is_decimal_integer (value c)); simpl; congruence.
Qed.

Lemma malformed_not_valid (s : string) :
  malformed s = true → valid s = false.
Proof.
  unfold malformed, valid. induction (conditions s) as [|c rest IH];
    [discriminate|].
  cbn [existsb forallb]. destruct (malformed_condition c) eqn:Hc.
  - now rewrite (malformed_condition_not_readable c Hc).
  - simpl. intros H. rewrite (IH H). apply andb_false_r.
Qed.

End Mapping.

(** ** Reading and writing through a pointer *)

Section Heap.

Lemma same_elsewhere_refl (p : ptr) (h : Heap) : same_elsewhere p h h.
Proof. now split. Qed.

Lemma same_elsewhere_trans (p : ptr) (h1 h2 h3 : Heap) :
  same_elsewhere p h1 h2 → same_elsewhere p h2 h3 → same_elsewhere p h1 h3.
Proof.
  intros [L1 F1] [L2 F2]. split; [congruence|].
  intros q Hq. rewrite F2, F1; auto.
Qed.

Lemma storeConfig_spec (p : ptr) (c c' : mysql.ConnectionConfig) (h : Heap) :
  loadConfig p h = Some c →
  ∃ h', storeConfig p c' h = Some h' ∧ loadConfig p h' = Some c' ∧
        same_elsewhere p h h'.
Proof.
  intros Hload. destruct p as [a|]; [|discriminate].
  unfold storeConfig. rewrite Hload.
  eexists. split; [reflexivity|].
  assert (a < List.length h)%nat as Hlt.
  { unfold loadConfig, load in Hload.
    destruct (h !! a) eqn:E; [|discriminate].
    eapply lookup_lt_Some; eauto. }
  split; [|split].
  - unfold loadConfig, load. now rewrite list_lookup_insert_eq.
  - apply length_insert.
  - intros [b|] Hq; [|reflexivity].
    unfold load. apply list_lookup_insert_ne. congruence.
Qed.

Lemma assignUser_if (b : bool) (p : ptr) (v : string) (h : Heap)
    (c : mysql.ConnectionConfig) :
  loadConfig p h = Some c →
  ∃ h', (if b then assignUser p v h else Some h) = Some h' ∧
        loadConfig p h' = Some (if b then mysql.set_User c v else c) ∧
        same_elsewhere p h h'.
Proof.
  intros Hload. destruct b.
  - unfold assignUser. rewrite Hload. simpl.
    now apply storeConfig_spec with (c := c).
  - exists h. auto using same_elsewhere_refl.
Qed.

Lemma assignPassword_if (b : bool) (p : ptr) (v : string) (h : Heap)
    (c : mysql.ConnectionConfig) :
  loadConfig p h = Some c →
  ∃ h', (if b then assignPassword p v h else Some h) = Some h' ∧
        loadConfig p h' = Some (if b then mysql.set_Password c v else c) ∧
        same_elsewhere p h h'.
Proof.
  intros Hload. destruct b.
  - unfold assignPassword. rewrite Hload. simpl.
    now apply storeConfig_spec with (c := c).
  - exists h. auto using same_elsewhere_refl.
Qed.

(** [ApplyCredentials] returns, with the context as it was and the heap
    changed at the inspector's configuration only, which then holds the
    layered credentials. *)
Lemma ApplyCredentials_spec (this : MigrationContext) (h : Heap)
    (c : mysql.ConnectionConfig) :
  loadConfig (InspectorConnectionConfig this) h = Some c →
  ∃ h', ApplyCredentials this h = Some (this, h') ∧
        loadConfig (InspectorConnectionConfig this) h' = Some (layered this c) ∧
        same_elsewhere (InspectorConnectionConfig this) h h'.
Proof.
  intros H0. unfold ApplyCredentials.
  set (p := InspectorConnectionConfig this) in *.
  destruct (assignUser_if (negb (String.eqb (Client.User (Client (config this))) ""))
              p (Client.User (Client (config this))) h c H0)
    as (h1 & -> & H1 & F1).
  simpl.
  destruct (assignUser_if (negb (String.eqb (CliUser this) ""))
              p (CliUser this) h1 _ H1) as (h2 & -> & H2 & F2).
  simpl.
  destruct (assignPassword_if
              (negb (String.eqb (Client.Password (Client (config this))) ""))
              p (Client.Password (Client (config this))) h2 _ H2)
    as (h3 & -> & H3 & F3).
  simpl.
  destruct (assignPassword_if (negb (String.eqb (CliPassword this) ""))
              p (CliPassword this) h3 _ H3) as (h4 & -> & H4 & F4).
  simpl.
  exists h4. split; [reflexivity|]. split.
  - rewrite H4. f_equal. unfold layered.
    destruct c as [host port user password].
    destruct (negb (String.eqb (Client.User (Client (config this))) "")),
      (negb (String.eqb (CliUser this) "")),
      (negb (String.eqb (Client.Password (Client (config this))) "")),
      (negb (String.eqb (CliPassword this) "")); reflexivity.
  - eauto using same_elsewhere_trans.
Qed.

End Heap.

(** * The claims of the specification *)

Section Names.

(** C4.  The ghost, old and changelog table names are the original table
    name between [_] and a fixed suffix, and the voluntary lock name is
    the database name, a dot, the table name and [.lock]; so two contexts
    with the same table name (and, for the lock, the same database name)
    get the same names, byte for byte, whatever their other fields. *)
Theorem derived_names_deterministic (this other : MigrationContext) :
  OriginalTableName this = OriginalTableName other →
  (GetGhostTableName this = "_" +:+ OriginalTableName this +:+ "_gst"
   ∧ GetOldTableName this = "_" +:+ OriginalTableName this +:+ "_old"
   ∧ GetChangelogTableName this = "_" +:+ OriginalTableName this +:+ "_osc"
   ∧ GetVoluntaryLockName this =
       DatabaseName this +:+ "." +:+ OriginalTableName this +:+ ".lock")
  ∧ GetGhostTableName this = GetGhostTableName other
  ∧ GetOldTableName this = GetOldTableName other
  ∧ GetChangelogTableName this = GetChangelogTableName other
  ∧ (DatabaseName this = DatabaseName other →
     GetVoluntaryLockName this = GetVoluntaryLockName other).
Proof.
  intros Htable.
  unfold GetGhostTableName, GetOldTableName, GetChangelogTableName,
    GetVoluntaryLockName.
  rewrite <- Htable.
  repeat split; try reflexivity.
  now intros <-.
Qed.

Lemma derived_names_users :
  OriginalTableName usersContext
  = OriginalTableName (set_OriginalBinlogFormat usersContext "ROW")
  ∧ GetGhostTableName (set_OriginalBinlogFormat usersContext "ROW") = "_users_gst"
  ∧ GetOldTableName (set_OriginalBinlogFormat usersContext "ROW") = "_users_old"
  ∧ GetChangelogTableName (set_OriginalBinlogFormat usersContext "ROW")
    = "_users_osc"
  ∧ GetVoluntaryLockName (set_OriginalBinlogFormat usersContext "ROW")
    = "shop.users.lock".
Proof.
  split; [reflexivity|].
  destruct (derived_names_deterministic usersContext
              (set_OriginalBinlogFormat usersContext "ROW") eq_refl)
    as (_ & Hgst & Hold & Hosc & Hlock).
  rewrite <- Hgst, <- Hold, <- Hosc, <- (Hlock eq_refl).
  repeat split; reflexivity.
Defined.

End Names.

Section Predicates.

(** C7.  [RequiresBinlogFormatChange] is true exactly when the original
    binlog format is not [ROW]. *)
Theorem RequiresBinlogFormatChange_iff (this : MigrationContext) :
  RequiresBinlogFormatChange this = true ↔ OriginalBinlogFormat this ≠ "ROW".
Proof.
  unfold RequiresBinlogFormatChange.
  rewrite negb_true_iff. apply String.eqb_neq.
Qed.

Example RequiresBinlogFormatChange_formats :
  RequiresBinlogFormatChange (set_OriginalBinlogFormat freshContext "ROW") = false
  ∧ RequiresBinlogFormatChange (set_OriginalBinlogFormat freshContext "STATEMENT")
    = true
  ∧ RequiresBinlogFormatChange (set_OriginalBinlogFormat freshContext "MIXED")
    = true
  ∧ RequiresBinlogFormatChange (set_OriginalBinlogFormat freshContext "row") = true.
Proof. repeat split. Qed.

(** C8.  [HasMigrationRange] is true exactly when both bounds of the
    global range are set, and false exactly when one of them is nil; so
    it is false when the range is absent, as in a fresh context. *)
Theorem HasMigrationRange_iff (this : MigrationContext) :
  (HasMigrationRange this = true ↔
     MigrationRangeMinValues this ≠ nil ∧ MigrationRangeMaxValues this ≠ nil)
  ∧ (HasMigrationRange this = false ↔
     MigrationRangeMinValues this = nil ∨ MigrationRangeMaxValues this = nil)
  ∧ HasMigrationRange freshContext = false.
Proof.
  unfold HasMigrationRange. split; [|split].
  - rewrite andb_true_iff, !negb_true_iff, !bool_decide_eq_false. reflexivity.
  - rewrite andb_false_iff, !negb_false_iff, !bool_decide_eq_true. reflexivity.
  - reflexivity.
Qed.

Example HasMigrationRange_bounds :
  HasMigrationRange (set_MigrationRange freshContext (Some 6%nat) (Some 7%nat))
  = true
  ∧ HasMigrationRange (set_MigrationRange freshContext (Some 6%nat) nil) = false
  ∧ HasMigrationRange (set_MigrationRange freshContext nil (Some 7%nat)) = false
  ∧ HasMigrationRange (set_MigrationRange freshContext nil nil) = false.
Proof. repeat split. Qed.

(** C9.  A fresh context has chunk size 1000, a lag threshold of 1000
    milliseconds and a swap timeout of 3 seconds, both non-zero, and an
    empty max-load mapping, whatever the heap it is allocated on. *)
Theorem newMigrationContext_defaults (h : Heap) :
  ChunkSize (fst (newMigrationContext h)) = 1000
  ∧ MaxLagMillisecondsThrottleThreshold (fst (newMigrationContext h)) = 1000
  ∧ MaxLagMillisecondsThrottleThreshold (fst (newMigrationContext h)) ≠ 0
  ∧ SwapTablesTimeoutSeconds (fst (newMigrationContext h)) = 3
  ∧ SwapTablesTimeoutSeconds (fst (newMigrationContext h)) ≠ 0
  ∧ MaxLoad (fst (newMigrationContext h)) = ∅.
Proof. repeat split; try reflexivity; discriminate. Qed.

End Predicates.

Section Connections.

(** C5.  After [ApplyCredentials] a command-line user, or password, that
    is set is the inspector's, whatever the config file says; when only
    the config file sets it, the inspector has the value of the file.
    The call returns whenever the inspector's pointer is valid. *)
Theorem ApplyCredentials_cli_wins (this : MigrationContext) (h : Heap)
    (c : mysql.ConnectionConfig) :
  loadConfig (InspectorConnectionConfig this) h = Some c →
  ∃ h' c',
    ApplyCredentials this h = Some (this, h')
    ∧ loadConfig (InspectorConnectionConfig this) h' = Some c'
    ∧ (CliUser this ≠ "" → mysql.User c' = CliUser this)
    ∧ (CliUser this = "" → Client.User (Client (config this)) ≠ "" →
       mysql.User c' = Client.User (Client (config this)))
    ∧ (CliPassword this ≠ "" → mysql.Password c' = CliPassword this)
    ∧ (CliPassword this = "" → Client.Password (Client (config this)) ≠ "" →
       mysql.Password c' = Client.Password (Client (config this))).
Proof.
  intros Hload.
  destruct (ApplyCredentials_spec this h c Hload) as (h' & Hrun & Hnew & _).
  exists h', (layered this c). split; [exact Hrun|]. split; [exact Hnew|].
  unfold layered. cbn [mysql.User mysql.Password].
  repeat split.
  - intros H. apply String.eqb_neq in H. now rewrite H.
  - intros -> H. apply String.eqb_neq in H. now rewrite H.
  - intros H. apply String.eqb_neq in H. now rewrite H.
  - intros -> H. apply String.eqb_neq in H. now rewrite H.
Qed.

Lemma ApplyCredentials_cli_wins_root :
  loadConfig (InspectorConnectionConfig cliContext) freshHeap = Some mysql.zero
  ∧ ∃ h' c',
      ApplyCredentials cliContext freshHeap = Some (cliContext, h')
      ∧ loadConfig (InspectorConnectionConfig cliContext) h' = Some c'
      ∧ mysql.User c' = "root" ∧ mysql.Password c' = "secret".
Proof.
  split; [reflexivity|].
  destruct (ApplyCredentials_cli_wins cliContext freshHeap mysql.zero eq_refl)
    as (h' & c' & Hrun & Hnew & Hcli & _ & _ & Hfile).
  exists h', c'. split; [exact Hrun|]. split; [exact Hnew|]. split.
  - apply Hcli. discriminate.
  - apply Hfile; [reflexivity|discriminate].
Defined.

(** C6.  [InspectorIsAlsoApplier] returns true exactly when the inspector's
    and the applier's configurations are equal, and false exactly when
    they differ. *)
Theorem InspectorIsAlsoApplier_iff (this : MigrationContext) (h : Heap)
    (inspector applier : mysql.ConnectionConfig) :
  loadConfig (InspectorConnectionConfig this) h = Some inspector →
  loadConfig (ApplierConnectionConfig this) h = Some applier →
  (InspectorIsAlsoApplier this h = Some true ↔ inspector = applier)
  ∧ (InspectorIsAlsoApplier this h = Some false ↔ inspector ≠ applier).
Proof.
  intros Hi Ha. unfold InspectorIsAlsoApplier. rewrite Hi, Ha. simpl.
  unfold mysql.Equals. split.
  - split.
    + intros [= H]. now apply bool_decide_eq_true in H.
    + intros H. f_equal. now apply bool_decide_eq_true.
  - split.
    + intros [= H]. now apply bool_decide_eq_false in H.
    + intros H. f_equal. now apply bool_decide_eq_false.
Qed.

Lemma InspectorIsAlsoApplier_fresh :
  (loadConfig (InspectorConnectionConfig freshContext) freshHeap = Some mysql.zero
   ∧ loadConfig (ApplierConnectionConfig freshContext) freshHeap = Some mysql.zero)
  ∧ InspectorIsAlsoApplier freshContext freshHeap = Some true.
Proof.
  split; [split; reflexivity|].
  apply (InspectorIsAlsoApplier_iff freshContext freshHeap mysql.zero mysql.zero
           eq_refl eq_refl).
  reflexivity.
Defined.

(** C10, as stated, at a context whose two roles share one configuration
    object: the command-line user reaches the applier's configuration
    too. *)
Lemma ApplyCredentials_changes_aliased_applier :
  ApplierConnectionConfig aliasedContext = InspectorConnectionConfig aliasedContext
  ∧ loadConfig (ApplierConnectionConfig aliasedContext) freshHeap
    = Some mysql.zero
  ∧ (ApplyCredentials aliasedContext freshHeap ≫=
       λ r, loadConfig (ApplierConnectionConfig (fst r)) (snd r))
    = Some {| mysql.Hostname := ""; mysql.Port := 0;
              mysql.User := "root"; mysql.Password := "secret" |}.
Proof. repeat split. Qed.

(** C10, amended.  [ApplyCredentials] leaves the context as it is, and
    every object of the heap but the inspector's configuration; of that
    one it keeps the host and the port, and keeps the user, or the
    password, when neither the file nor the command line sets it.  The
    applier's configuration is unchanged when it is another object than
    the inspector's. *)
Theorem ApplyCredentials_frame (this : MigrationContext) (h : Heap)
    (c : mysql.ConnectionConfig) :
  loadConfig (InspectorConnectionConfig this) h = Some c →
  ∃ h' c',
    ApplyCredentials this h = Some (this, h')
    ∧ List.length h' = List.length h
    ∧ (∀ q, q ≠ InspectorConnectionConfig this → load q h' = load q h)
    ∧ loadConfig (InspectorConnectionConfig this) h' = Some c'
    ∧ mysql.Hostname c' = mysql.Hostname c
    ∧ mysql.Port c' = mysql.Port c
    ∧ (Client.User (Client (config this)) = "" → CliUser this = "" →
       mysql.User c' = mysql.User c)
    ∧ (Client.Password (Client (config this)) = "" → CliPassword this = "" →
       mysql.Password c' = mysql.Password c)
    ∧ (ApplierConnectionConfig this ≠ InspectorConnectionConfig this →
       loadConfig (ApplierConnectionConfig this) h'
       = loadConfig (ApplierConnectionConfig this) h).
Proof.
  intros Hload.
  destruct (ApplyCredentials_spec this h c Hload)
    as (h' & Hrun & Hnew & Hlen & Hframe).
  exists h', (layered this c).
  split; [exact Hrun|]. split; [exact Hlen|]. split; [exact Hframe|].
  split; [exact Hnew|]. unfold layered. cbn.
  repeat split.
  - now intros -> ->.
  - now intros -> ->.
  - intros Hne. unfold loadConfig. now rewrite (Hframe _ Hne).
Qed.

Lemma ApplyCredentials_frame_fresh :
  loadConfig (InspectorConnectionConfig cliContext) freshHeap = Some mysql.zero
  ∧ ∃ h',
      ApplyCredentials cliContext freshHeap = Some (cliContext, h')
      ∧ loadConfig (ApplierConnectionConfig cliContext) h' = Some mysql.zero.
Proof.
  split; [reflexivity|].
  destruct (ApplyCredentials_frame cliContext freshHeap mysql.zero eq_refl)
    as (h' & c' & Hrun & _ & _ & _ & _ & _ & _ & _ & Happlier).
  exists h'. split; [exact Hrun|].
  rewrite Happlier; [reflexivity|discriminate].
Defined.

End Connections.

Section MaxLoadClaims.
Import Syntax.

(** C1, as stated, at [Threads_running=100,Threads_connected]: the second
    condition has no [=], the call returns the error for it, and [MaxLoad]
    has gained the entry of the first condition. *)
Lemma ReadMaxLoad_error_keeps_earlier_conditions :
  malformed "Threads_running=100,Threads_connected" = true
  ∧ fst (ReadMaxLoad freshContext "Threads_running=100,Threads_connected")
    = Some "Error parsing max-load condition: Threads_connected"
  ∧ MaxLoad freshContext !! "Threads_running" = None
  ∧ MaxLoad (snd (ReadMaxLoad freshContext
                    "Threads_running=100,Threads_connected"))
      !! "Threads_running" = Some 100
  ∧ MaxLoad (snd (ReadMaxLoad freshContext
                    "Threads_running=100,Threads_connected"))
    ≠ MaxLoad freshContext.
Proof.
  repeat split; try reflexivity.
  intros H. apply (f_equal (λ m : gmap string Z, m !! "Threads_running")) in H.
  vm_compute in H. discriminate.
Qed.

(** C1, amended.  For a malformed max-load string [ReadMaxLoad] returns
    the error that names the first condition it cannot read; [MaxLoad]
    then holds, over its prior contents, the entries of the conditions
    that stand before that one, and nothing else of the context has
    changed; so the context is as before the call when the first
    condition is the one that fails. *)
Theorem ReadMaxLoad_malformed (this : MigrationContext) (maxLoadList : string) :
  malformed maxLoadList = true →
  ∃ pre bad post,
    conditions maxLoadList = (pre ++ bad :: post)%list
    ∧ forallb readable pre = true
    ∧ readable bad = false
    ∧ ReadMaxLoad this maxLoadList
      = (Some (complaint bad), set_MaxLoad this (mapping pre (MaxLoad this)))
    ∧ (pre = [] → ReadMaxLoad this maxLoadList = (Some (complaint bad), this)).
Proof.
  intros Hbad. apply malformed_not_valid in Hbad.
  destruct (readable_not_all _ Hbad)
    as (pre & bad & post & Hsplit & Hpre & Hb & Hv & Hp).
  exists pre, bad, post.
  rewrite ReadMaxLoad_spec, Hv, Hp.
  repeat split; auto.
  intros ->. simpl. now rewrite set_MaxLoad_same.
Qed.

Lemma ReadMaxLoad_malformed_no_equals :
  malformed "Threads_running" = true
  ∧ ReadMaxLoad freshContext "Threads_running"
    = (Some "Error parsing max-load condition: Threads_running", freshContext).
Proof.
  split; [reflexivity|].
  destruct (ReadMaxLoad_malformed freshContext "Threads_running" eq_refl)
    as (pre & bad & post & Hsplit & _ & _ & _ & Hfirst).
  destruct pre as [|c pre].
  - injection Hsplit as <- _. now apply Hfirst.
  - destruct pre; discriminate Hsplit.
Defined.

(** C2, as stated, at [Threads_running=9223372036854775808]: a variable
    and an integer, and [ReadMaxLoad] returns an error, for the integer
    is no [int64]. *)
Lemma ReadMaxLoad_rejects_large_integer :
  valid_as_stated "Threads_running=9223372036854775808" = true
  ∧ fst (ReadMaxLoad freshContext "Threads_running=9223372036854775808")
    = Some "Error parsing numeric value in max-load condition: Threads_running=9223372036854775808".
Proof. split; reflexivity. Qed.

(** C2, amended.  For a max-load string that is empty, or a
    comma-separated list of [variable=integer] pairs with non-empty
    variables and integers that fit an [int64], [ReadMaxLoad] returns no
    error and [MaxLoad] holds, over its prior contents, the mapping of
    the conditions: each pair assigned in turn.  The empty string leaves
    the context as it is, and [Threads_running=100,Threads_connected=500]
    read into a fresh context gives
    [{Threads_running: 100, Threads_connected: 500}]. *)
Theorem ReadMaxLoad_valid :
  (∀ (this : MigrationContext) (maxLoadList : string),
      valid maxLoadList = true →
      ReadMaxLoad this maxLoadList
      = (None, set_MaxLoad this (mapping (conditions maxLoadList) (MaxLoad this))))
  ∧ (∀ (this : MigrationContext) (pairs : list (string * string)),
        forallb well_formed pairs = true →
        ReadMaxLoad this (separated (pair <$> pairs) ",")
        = (None, set_MaxLoad this (foldl assign (MaxLoad this) pairs)))
  ∧ (∀ this : MigrationContext, ReadMaxLoad this "" = (None, this))
  ∧ valid "Threads_running=100,Threads_connected=500" = true
  ∧ mapping (conditions "Threads_running=100,Threads_connected=500") ∅
    = {[ "Threads_running" := 100; "Threads_connected" := 500 ]}.
Proof.
  split; [|split; [|split; [|split]]].
  - intros this s Hvalid. rewrite ReadMaxLoad_spec.
    now destruct (readable_all _ Hvalid) as [-> ->].
  - intros this pairs Hpairs.
    destruct (valid_separated pairs Hpairs) as [Hconds Hvalid].
    rewrite ReadMaxLoad_spec, Hconds.
    unfold valid in Hvalid. rewrite Hconds in Hvalid.
    destruct (readable_all _ Hvalid) as [-> ->].
    now rewrite mapping_pairs.
  - reflexivity.
  - reflexivity.
  - vm_compute. reflexivity.
Qed.

Lemma ReadMaxLoad_valid_threads :
  valid "Threads_running=100,Threads_connected=500" = true
  ∧ fst (ReadMaxLoad freshContext "Threads_running=100,Threads_connected=500")
    = None
  ∧ MaxLoad (snd (ReadMaxLoad freshContext
                    "Threads_running=100,Threads_connected=500"))
    = {[ "Threads_running" := 100; "Threads_connected" := 500 ]}.
Proof.
  pose proof ReadMaxLoad_valid as (Hgeneral & _ & _ & Hvalid & Hmapping).
  split; [exact Hvalid|].
  rewrite (Hgeneral freshContext _ Hvalid). split; [reflexivity|].
  exact Hmapping.
Defined.

(** C3, as stated: two conditions for one variable are read in order, the
    later one winning, so the order of the conditions shows in the
    mapping; and an integer that is no [int64] ends the call, so that the
    conditions before it are in the mapping and those after it are not. *)
Lemma ReadMaxLoad_order_matters :
  (valid_as_stated "Threads_running=100,Threads_running=200" = true
   ∧ conditions "Threads_running=100,Threads_running=200"
     ≡ₚ conditions "Threads_running=200,Threads_running=100"
   ∧ MaxLoad (snd (ReadMaxLoad freshContext
                     "Threads_running=100,Threads_running=200"))
       !! "Threads_running" = Some 200
   ∧ MaxLoad (snd (ReadMaxLoad freshContext
                     "Threads_running=200,Threads_running=100"))
       !! "Threads_running" = Some 100)
  ∧ (valid_as_stated "Threads_running=100,Threads_connected=9223372036854775808"
     = true
     ∧ conditions "Threads_running=100,Threads_connected=9223372036854775808"
       ≡ₚ conditions "Threads_connected=9223372036854775808,Threads_running=100"
     ∧ MaxLoad (snd (ReadMaxLoad freshContext
                       "Threads_running=100,Threads_connected=9223372036854775808"))
         !! "Threads_running" = Some 100
     ∧ MaxLoad (snd (ReadMaxLoad freshContext
                       "Threads_connected=9223372036854775808,Threads_running=100"))
         !! "Threads_running" = None).
Proof.
  split; (split; [reflexivity|]); (split; [|split; reflexivity]);
    vm_compute; apply perm_swap.
Qed.

(** C3, amended.  Reading a max-load string a second time changes
    neither the error nor the context that the first reading gave, for
    every string.  Two valid strings, of integers that fit an [int64],
    whose conditions are a permutation of one another give the same
    result when no variable is given two different values. *)
Theorem ReadMaxLoad_idempotent_order_independent :
  (∀ (this : MigrationContext) (maxLoadList : string),
      ReadMaxLoad (snd (ReadMaxLoad this maxLoadList)) maxLoadList
      = ReadMaxLoad this maxLoadList)
  ∧ (∀ (this : MigrationContext) (list1 list2 : string),
        valid list1 = true →
        conditions list1 ≡ₚ conditions list2 →
        consistent (conditions list1) →
        valid list2 = true
        ∧ fst (ReadMaxLoad this list2) = None
        ∧ ReadMaxLoad this list2 = ReadMaxLoad this list1).
Proof.
  split.
  - intros this s. rewrite !ReadMaxLoad_spec. cbn [snd].
    rewrite MaxLoad_set_MaxLoad, set_MaxLoad_twice. now rewrite mapping_twice.
  - intros this s1 s2 Hvalid Hperm Hcons.
    assert (valid s2 = true) as Hvalid2.
    { unfold valid in *. rewrite forallb_forall in *.
      intros c Hc. apply Hvalid.
      apply list_elem_of_In. rewrite Hperm. now apply list_elem_of_In. }
    split; [exact Hvalid2|].
    rewrite !ReadMaxLoad_spec.
    destruct (readable_all _ Hvalid) as [-> ->].
    destruct (readable_all _ Hvalid2) as [-> ->].
    split; [reflexivity|].
    now rewrite (mapping_Permutation _ _ _ Hperm Hcons).
Qed.

Lemma ReadMaxLoad_order_independent_threads :
  (valid "Threads_running=100,Threads_connected=500" = true
   ∧ conditions "Threads_running=100,Threads_connected=500"
     ≡ₚ conditions "Threads_connected=500,Threads_running=100"
   ∧ consistent (conditions "Threads_running=100,Threads_connected=500"))
  ∧ ReadMaxLoad freshContext "Threads_connected=500,Threads_running=100"
    = ReadMaxLoad freshContext "Threads_running=100,Threads_connected=500".
Proof.
  assert (conditions "Threads_running=100,Threads_connected=500"
          ≡ₚ conditions "Threads_connected=500,Threads_running=100") as Hperm.
  { vm_compute. apply perm_swap. }
  assert (consistent (conditions "Threads_running=100,Threads_connected=500"))
    as Hcons.
  { change (conditions "Threads_running=100,Threads_connected=500")
      with ["Threads_running=100"; "Threads_connected=500"].
    intros c1 c2 H1 H2 Hv.
    rewrite !elem_of_cons, elem_of_nil in H1, H2.
    destruct H1 as [->|[->|[]]], H2 as [->|[->|[]]];
      try reflexivity; vm_compute in Hv; discriminate Hv. }
  split; [split; [reflexivity|split; assumption]|].
  apply (proj2 ReadMaxLoad_idempotent_order_independent freshContext
           "Threads_running=100,Threads_connected=500"
           "Threads_connected=500,Threads_running=100" eq_refl Hperm Hcons).
Defined.

End MaxLoadClaims.

(** * Further properties of the code *)

(** ** Lists of conditions *)

Section Conditions.
Import Syntax.

Lemma verdict_None (conds : list string) :
  verdict conds = None ↔ forallb readable conds = true.
Proof.
  induction conds as [|c rest IH]; [now split|].
  cbn [verdict forallb]. destruct (readable c); [exact IH|].
  split; discriminate.
Qed.

Lemma readable_prefix_readable (conds : list string) :
  forallb readable (readable_prefix conds) = true.
Proof.
  induction conds as [|c rest IH]; [reflexivity|].
  cbn [readable_prefix]. destruct (readable c) eqn:Hc; [|reflexivity].
  cbn [forallb]. now rewrite Hc, IH.
Qed.

Lemma readable_prefix_subset (conds : list string) (c : string) :
  c ∈ readable_prefix conds → c ∈ conds.
Proof.
  induction conds as [|d rest IH]; [easy|].
  cbn [readable_prefix]. destruct (readable d); [|now intros ?%elem_of_nil].
  rewrite !elem_of_cons. intros [->|H]; auto.
Qed.

Lemma last_value_absent (k : string) (conds : list string) :
  (∀ c, c ∈ conds → variable c ≠ k) → last_value k conds = None.
Proof.
  induction conds as [|c rest IH]; intros H; [reflexivity|].
  cbn [last_value]. rewrite IH.
  - assert (variable c ≠ k) as Hc by (apply H; now left).
    apply String.eqb_neq in Hc. now rewrite Hc.
  - intros d Hd. apply H. now right.
Qed.

Lemma last_value_app (k : string) (l1 l2 : list string) :
  last_value k (l1 ++ l2)%list =
  match last_value k l2 with
  | Some v => Some v
  | None => last_value k l1
  end.
Proof.
  induction l1 as [|c rest IH]; simpl.
  - now destruct (last_value k l2).
  - rewrite IH. now destruct (last_value k l2).
Qed.

Lemma readable_app (l1 l2 : list string) :
  forallb readable l1 = true →
  verdict (l1 ++ l2)%list = verdict l2
  ∧ readable_prefix (l1 ++ l2)%list = (l1 ++ readable_prefix l2)%list.
Proof.
  induction l1 as [|c rest IH]; [now split|].
  cbn [forallb]. intros [Hc Hrest]%andb_true_iff.
  destruct (IH Hrest) as [Hv Hp].
  simpl. rewrite Hc. split; [exact Hv|now rewrite Hp].
Qed.

Lemma Split_nonempty (s : string) (sep : ascii) : strings.Split s sep ≠ [].
Proof.
  intros H. apply (f_equal List.length) in H.
  rewrite Split_length in H. discriminate.
Qed.

(** Splitting at a separator splits the list of pieces. *)
Lemma Split_app (sep : ascii) (x y : string) :
  strings.Split (x +:+ String sep y) sep
  = (strings.Split x sep ++ strings.Split y sep)%list.
Proof.
  induction x as [|a x IH].
  - change ("" +:+ String sep y) with (String sep y).
    cbn [strings.Split]. now rewrite Ascii.eqb_refl.
  - change (String a x +:+ String sep y) with (String a (x +:+ String sep y)).
    cbn [strings.Split]. rewrite IH.
    destruct (Ascii.eqb a sep); [reflexivity|].
    destruct (strings.Split x sep) as [|tok toks] eqn:E; [|reflexivity].
    now destruct (Split_nonempty x sep).
Qed.

Lemma append_not_empty (x : string) (c : ascii) (y : string) :
  x +:+ String c y ≠ "".
Proof. now destruct x. Qed.

Lemma conditions_app (x y : string) :
  x ≠ "" → y ≠ "" →
  conditions (x +:+ String "," y) = (conditions x ++ conditions y)%list.
Proof.
  intros Hx Hy. unfold conditions.
  apply String.eqb_neq in Hx, Hy. rewrite Hx, Hy.
  pose proof (append_not_empty x "," y) as Hxy.
  apply String.eqb_neq in Hxy. rewrite Hxy.
  apply Split_app.
Qed.

Lemma readable_empty : readable "" = false.
Proof. reflexivity. Qed.

Lemma verdict_unreadable (conds : list string) (c : string) :
  c ∈ conds → readable c = false → verdict conds ≠ None.
Proof.
  intros Hin Hc Hv. apply verdict_None in Hv.
  rewrite forallb_forall in Hv.
  rewrite (Hv c) in Hc; [discriminate|now apply list_elem_of_In].
Qed.

End Conditions.

(** ** More about [ReadMaxLoad] *)

Section MaxLoadFurther.
Import Syntax.

(** X1.  [ReadMaxLoad] returns nil exactly for the valid strings: the
    empty one, and the comma-separated lists of readable conditions,
    whatever the context holds. *)
Theorem ReadMaxLoad_accepts_iff_valid (this : MigrationContext)
    (maxLoadList : string) :
  fst (ReadMaxLoad this maxLoadList) = None ↔ valid maxLoadList = true.
Proof. rewrite ReadMaxLoad_spec. cbn [fst]. apply verdict_None. Qed.

(** X2.  Whether it returns nil or an error, [ReadMaxLoad] changes no field
    of the context but [MaxLoad], and its error does not depend on what
    the context holds. *)
Theorem ReadMaxLoad_changes_only_MaxLoad (this other : MigrationContext)
    (maxLoadList : string) :
  snd (ReadMaxLoad this maxLoadList)
  = set_MaxLoad this (MaxLoad (snd (ReadMaxLoad this maxLoadList)))
  ∧ fst (ReadMaxLoad this maxLoadList) = fst (ReadMaxLoad other maxLoadList).
Proof. rewrite !ReadMaxLoad_spec. now split. Qed.

(** X3.  [ReadMaxLoad] removes no entry of [MaxLoad], and leaves the entry
    of every variable that no condition of the string names as it was,
    whether it returns nil or an error. *)
Theorem ReadMaxLoad_keeps_other_variables (this : MigrationContext)
    (maxLoadList k : string) :
  (is_Some (MaxLoad this !! k) →
   is_Some (MaxLoad (snd (ReadMaxLoad this maxLoadList)) !! k))
  ∧ ((∀ c, c ∈ conditions maxLoadList → variable c ≠ k) →
     MaxLoad (snd (ReadMaxLoad this maxLoadList)) !! k = MaxLoad this !! k).
Proof.
  rewrite ReadMaxLoad_spec. cbn [snd]. rewrite MaxLoad_set_MaxLoad, mapping_lookup.
  split.
  - intros H. now destruct (last_value k _).
  - intros H. rewrite last_value_absent; [reflexivity|].
    intros c Hc. apply H. now apply readable_prefix_subset.
Qed.

Lemma ReadMaxLoad_keeps_other_variables_lag :
  (∀ c, c ∈ conditions "Threads_running=100,Threads_connected=500" →
        variable c ≠ "Seconds_behind")
  ∧ MaxLoad (snd (ReadMaxLoad
                    (set_MaxLoad freshContext {[ "Seconds_behind" := 7 ]})
                    "Threads_running=100,Threads_connected=500"))
      !! "Seconds_behind" = Some 7.
Proof.
  assert (∀ c, c ∈ conditions "Threads_running=100,Threads_connected=500" →
               variable c ≠ "Seconds_behind") as H.
  { change (conditions "Threads_running=100,Threads_connected=500")
      with ["Threads_running=100"; "Threads_connected=500"].
    intros c Hc. rewrite !elem_of_cons, elem_of_nil in Hc.
    destruct Hc as [->|[->|[]]]; discriminate. }
  split; [exact H|].
  rewrite (proj2 (ReadMaxLoad_keeps_other_variables
                    (set_MaxLoad freshContext {[ "Seconds_behind" := 7 ]})
                    "Threads_running=100,Threads_connected=500"
                    "Seconds_behind") H).
  reflexivity.
Defined.

(** X4.  After a valid string has been read, a variable has the value of
    the last condition that names it. *)
Theorem ReadMaxLoad_last_condition_wins (this : MigrationContext)
    (maxLoadList : string) (before_ after_ : list string) (c : string) :
  valid maxLoadList = true →
  conditions maxLoadList = (before_ ++ c :: after_)%list →
  (∀ d, d ∈ after_ → variable d ≠ variable c) →
  MaxLoad (snd (ReadMaxLoad this maxLoadList)) !! variable c
  = Some (decimal_value (value c)).
Proof.
  intros Hvalid Hsplit Hlast.
  rewrite ReadMaxLoad_spec. cbn [snd]. rewrite MaxLoad_set_MaxLoad.
  destruct (readable_all _ Hvalid) as [_ ->].
  rewrite mapping_lookup, Hsplit, last_value_app.
  cbn [last_value]. rewrite (last_value_absent _ _ Hlast).
  now rewrite String.eqb_refl.
Qed.

Lemma ReadMaxLoad_last_condition_wins_twice :
  (valid "Threads_running=100,Threads_connected=500,Threads_running=200" = true
   ∧ conditions "Threads_running=100,Threads_connected=500,Threads_running=200"
     = (["Threads_running=100"; "Threads_connected=500"]
          ++ "Threads_running=200" :: [])%list)
  ∧ MaxLoad (snd (ReadMaxLoad freshContext
        "Threads_running=100,Threads_connected=500,Threads_running=200"))
      !! "Threads_running" = Some 200.
Proof.
  split; [split; reflexivity|].
  apply (ReadMaxLoad_last_condition_wins freshContext
           "Threads_running=100,Threads_connected=500,Threads_running=200"
           ["Threads_running=100"; "Threads_connected=500"] []
           "Threads_running=200" eq_refl eq_refl).
  intros d Hd. now apply elem_of_nil in Hd.
Defined.

(** X5.  Reading a valid, non-empty string and then a second non-empty
    string gives what reading the two joined by a comma gives: the same
    error or nil, and the same context. *)
Theorem ReadMaxLoad_twice_is_joined (this : MigrationContext)
    (list1 list2 : string) :
  valid list1 = true → list1 ≠ "" → list2 ≠ "" →
  ReadMaxLoad (snd (ReadMaxLoad this list1)) list2
  = ReadMaxLoad this (list1 +:+ "," +:+ list2).
Proof.
  intros Hvalid H1 H2.
  change (list1 +:+ "," +:+ list2) with (list1 +:+ String "," list2).
  rewrite !ReadMaxLoad_spec, (conditions_app _ _ H1 H2). cbn [snd].
  destruct (readable_all _ Hvalid) as [_ Hp]. rewrite Hp.
  destruct (readable_app (conditions list1) (conditions list2) Hvalid)
    as [-> ->].
  rewrite MaxLoad_set_MaxLoad, set_MaxLoad_twice.
  unfold mapping. now rewrite foldl_app.
Qed.

Lemma ReadMaxLoad_twice_is_joined_threads :
  (valid "Threads_running=100" = true ∧ "Threads_running=100" ≠ ""
   ∧ "Threads_connected=500" ≠ "")
  ∧ ReadMaxLoad (snd (ReadMaxLoad freshContext "Threads_running=100"))
      "Threads_connected=500"
    = ReadMaxLoad freshContext "Threads_running=100,Threads_connected=500".
Proof.
  split; [split; [reflexivity|split; discriminate]|].
  apply (ReadMaxLoad_twice_is_joined freshContext "Threads_running=100"
           "Threads_connected=500" eq_refl); discriminate.
Defined.

(** X6.  A comma at the end, at the start, or next to another comma makes
    an empty condition, and [ReadMaxLoad] returns an error for it.  After
    a valid non-empty string the comma at the end is found last: the
    conditions of the string are all in [MaxLoad] when the error for the
    empty condition is returned. *)
Theorem ReadMaxLoad_stray_comma (this : MigrationContext) (x y : string) :
  fst (ReadMaxLoad this (x +:+ ",")) ≠ None
  ∧ fst (ReadMaxLoad this ("," +:+ y)) ≠ None
  ∧ fst (ReadMaxLoad this (x +:+ ",," +:+ y)) ≠ None
  ∧ (valid x = true → x ≠ "" →
     ReadMaxLoad this (x +:+ ",")
     = (Some "Error parsing max-load condition: ",
        set_MaxLoad this (mapping (conditions x) (MaxLoad this)))).
Proof.
  assert (∀ s, s ≠ "" → "" ∈ strings.Split s "," →
               fst (ReadMaxLoad this s) ≠ None) as Hempty.
  { intros s Hs Hin. rewrite ReadMaxLoad_spec. cbn [fst].
    apply (verdict_unreadable _ ""); [|reflexivity].
    unfold conditions. apply String.eqb_neq in Hs. now rewrite Hs. }
  split; [|split; [|split]].
  - apply Hempty; [apply append_not_empty|].
    change (x +:+ ",") with (x +:+ String "," "").
    rewrite Split_app. apply elem_of_app. right. now left.
  - apply Hempty; [discriminate|]. now left.
  - apply Hempty; [apply append_not_empty|].
    change (x +:+ ",," +:+ y) with (x +:+ String "," (String "," y)).
    rewrite Split_app. apply elem_of_app. right.
    cbn [strings.Split]. now left.
  - intros Hvalid Hx.
    change (x +:+ ",") with (x +:+ String "," "").
    rewrite ReadMaxLoad_spec. unfold conditions at 1 2.
    pose proof (append_not_empty x "," "") as Hne.
    apply String.eqb_neq in Hne. rewrite Hne, Split_app.
    assert (strings.Split x "," = conditions x) as ->.
    { unfold conditions. apply String.eqb_neq in Hx. now rewrite Hx. }
    destruct (readable_app (conditions x) (strings.Split "" ",") Hvalid)
      as [-> ->].
    cbn. now rewrite app_nil_r.
Qed.

Lemma ReadMaxLoad_stray_comma_threads :
  (valid "Threads_running=100" = true ∧ "Threads_running=100" ≠ "")
  ∧ fst (ReadMaxLoad freshContext "Threads_running=100,")
    = Some "Error parsing max-load condition: "
  ∧ MaxLoad (snd (ReadMaxLoad freshContext "Threads_running=100,"))
      !! "Threads_running" = Some 100.
Proof.
  split; [split; [reflexivity|discriminate]|].
  pose proof (proj2 (proj2 (proj2 (ReadMaxLoad_stray_comma freshContext
                                     "Threads_running=100" "")))
                eq_refl ltac:(discriminate)) as H.
  change ("Threads_running=100" +:+ ",") with "Threads_running=100," in H.
  rewrite H. split; reflexivity.
Defined.

(** X7.  [ReadMaxLoad] writes values of an [int64] only: when the values
    of [MaxLoad] are in the range of an [int64] before the call, they are
    after it. *)
Theorem ReadMaxLoad_int64 (this : MigrationContext) (maxLoadList : string) :
  map_Forall (λ _ v, fits_int64 v = true) (MaxLoad this) →
  map_Forall (λ _ v, fits_int64 v = true)
    (MaxLoad (snd (ReadMaxLoad this maxLoadList))).
Proof.
  intros Hprior k v. rewrite ReadMaxLoad_spec. cbn [snd].
  rewrite MaxLoad_set_MaxLoad, mapping_lookup.
  destruct (last_value k _) as [w|] eqn:E; [|apply Hprior].
  intros [= <-].
  apply last_value_Some in E as (c & Hin & _ & <-).
  pose proof (readable_prefix_readable (conditions maxLoadList)) as Hall.
  rewrite forallb_forall in Hall.
  specialize (Hall c (proj1 (list_elem_of_In _ _) Hin)).
  unfold readable in Hall. now apply andb_true_iff in Hall as [_ ?].
Qed.

Lemma ReadMaxLoad_int64_fresh :
  map_Forall (λ _ v, fits_int64 v = true) (MaxLoad freshContext)
  ∧ map_Forall (λ _ v, fits_int64 v = true)
      (MaxLoad (snd (ReadMaxLoad freshContext
                       "Threads_running=100,Threads_connected=500"))).
Proof.
  assert (map_Forall (λ _ v, fits_int64 v = true) (MaxLoad freshContext)) as H.
  { intros k v Hk. change (MaxLoad freshContext) with (∅ : gmap string Z) in Hk.
    now rewrite lookup_empty in Hk. }
  split; [exact H|].
  apply (ReadMaxLoad_int64 freshContext
           "Threads_running=100,Threads_connected=500" H).
Defined.

End MaxLoadFurther.

(** ** More about the derived names *)

Section NamesFurther.
Import Syntax.

Lemma length_append (x y : string) :
  String.length (x +:+ y) = (String.length x + String.length y)%nat.
Proof.
  induction x as [|a x IH]; [reflexivity|].
  change (String a x +:+ y) with (String a (x +:+ y)).
  cbn [String.length]. now rewrite IH.
Qed.

Lemma append_same_length_inj (x y s t : string) :
  String.length x = String.length y → x +:+ s = y +:+ t → x = y ∧ s = t.
Proof.
  revert y. induction x as [|a x IH]; intros [|b y] Hlen; try discriminate.
  - now split.
  - change (String a x +:+ s) with (String a (x +:+ s)).
    change (String b y +:+ t) with (String b (y +:+ t)).
    intros [= -> H]. injection Hlen as Hlen.
    destruct (IH y Hlen H) as [-> ->]. now split.
Qed.

(** Strings that end with suffixes of one length are equal only when the
    suffixes are, and then what stands before them is equal too. *)
Lemma append_suffix_inj (x y s t : string) :
  String.length s = String.length t → x +:+ s = y +:+ t → x = y ∧ s = t.
Proof.
  intros Hst H. apply append_same_length_inj; [|exact H].
  apply (f_equal String.length) in H. rewrite !length_append in H. lia.
Qed.

(** X8.  The derived table names are the original table name with five
    bytes added, and the lock name the database and table names with six:
    no name is shortened, however long the table name is. *)
Theorem derived_names_length (this : MigrationContext) :
  String.length (GetGhostTableName this)
  = (String.length (OriginalTableName this) + 5)%nat
  ∧ String.length (GetOldTableName this)
    = (String.length (OriginalTableName this) + 5)%nat
  ∧ String.length (GetChangelogTableName this)
    = (String.length (OriginalTableName this) + 5)%nat
  ∧ String.length (GetVoluntaryLockName this)
    = (String.length (DatabaseName this)
       + String.length (OriginalTableName this) + 6)%nat.
Proof.
  unfold GetGhostTableName, GetOldTableName, GetChangelogTableName,
    GetVoluntaryLockName.
  cbn [Go.Sprintf Ascii.eqb Bool.eqb Go.extra]. cbn [String.length].
  rewrite !length_append. cbn [String.length].
  rewrite !length_append. cbn [String.length]. lia.
Qed.

(** X9.  Two contexts have the same ghost table name exactly when they have
    the same original table name, and so for the old and the changelog
    table names: the tables of two migrations never share a derived
    name of one kind. *)
Theorem derived_names_injective (this other : MigrationContext) :
  (GetGhostTableName this = GetGhostTableName other
   ↔ OriginalTableName this = OriginalTableName other)
  ∧ (GetOldTableName this = GetOldTableName other
     ↔ OriginalTableName this = OriginalTableName other)
  ∧ (GetChangelogTableName this = GetChangelogTableName other
     ↔ OriginalTableName this = OriginalTableName other).
Proof.
  unfold GetGhostTableName, GetOldTableName, GetChangelogTableName.
  cbn [Go.Sprintf Ascii.eqb Bool.eqb Go.extra].
  repeat split; try (intros ->; reflexivity);
    intros [= H]; now apply append_suffix_inj in H.
Qed.

(** X10.  The ghost, old and changelog names are pairwise different, also
    between two contexts, and none of the three names of a table is the
    name of the table itself. *)
Theorem derived_names_distinct (this other : MigrationContext) :
  GetGhostTableName this ≠ GetOldTableName other
  ∧ GetGhostTableName this ≠ GetChangelogTableName other
  ∧ GetOldTableName this ≠ GetChangelogTableName other
  ∧ GetGhostTableName this ≠ OriginalTableName this
  ∧ GetOldTableName this ≠ OriginalTableName this
  ∧ GetChangelogTableName this ≠ OriginalTableName this.
Proof.
  pose proof (derived_names_length this) as (Hg & Ho & Hc & _).
  repeat split;
    try (intros H; apply (f_equal String.length) in H; lia);
    unfold GetGhostTableName, GetOldTableName, GetChangelogTableName;
    cbn [Go.Sprintf Ascii.eqb Bool.eqb Go.extra];
    intros [= H]; apply append_suffix_inj in H as [_ H];
    (discriminate || reflexivity).
Qed.

(** X11.  When the database names have no dot, two contexts have the same
    voluntary lock name only if they have the same database name and the
    same table name. *)
Theorem lock_name_injective (this other : MigrationContext) :
  count_byte "." (DatabaseName this) = O →
  count_byte "." (DatabaseName other) = O →
  GetVoluntaryLockName this = GetVoluntaryLockName other →
  DatabaseName this = DatabaseName other
  ∧ OriginalTableName this = OriginalTableName other.
Proof.
  unfold GetVoluntaryLockName.
  cbn [Go.Sprintf Ascii.eqb Bool.eqb Go.extra].
  intros Hd1 Hd2 H.
  destruct (before_after_append "." (DatabaseName this)
              (OriginalTableName this +:+ ".lock") Hd1) as [Hb1 Ha1].
  destruct (before_after_append "." (DatabaseName other)
              (OriginalTableName other +:+ ".lock") Hd2) as [Hb2 Ha2].
  split.
  - rewrite <- Hb1, <- Hb2. now f_equal.
  - assert (OriginalTableName this +:+ ".lock"
            = OriginalTableName other +:+ ".lock") as Ht.
    { rewrite <- Ha1, <- Ha2. now f_equal. }
    now apply append_suffix_inj in Ht.
Qed.

Lemma lock_name_injective_users :
  (count_byte "." (DatabaseName usersContext) = O
   ∧ count_byte "." (DatabaseName (set_OriginalBinlogFormat usersContext "ROW"))
     = O
   ∧ GetVoluntaryLockName usersContext
     = GetVoluntaryLockName (set_OriginalBinlogFormat usersContext "ROW"))
  ∧ DatabaseName usersContext
    = DatabaseName (set_OriginalBinlogFormat usersContext "ROW")
  ∧ OriginalTableName usersContext
    = OriginalTableName (set_OriginalBinlogFormat usersContext "ROW").
Proof.
  split; [repeat split|].
  apply (lock_name_injective usersContext
           (set_OriginalBinlogFormat usersContext "ROW") eq_refl eq_refl eq_refl).
Defined.

(** With a dot in a database name the lock names of two tables can be the
    same. *)
Example lock_name_collision :
  GetVoluntaryLockName (set_table freshContext "shop.eu" "users")
  = GetVoluntaryLockName (set_table freshContext "shop" "eu.users").
Proof. reflexivity. Qed.

End NamesFurther.

(** ** More about [ApplyCredentials] *)

Section CredentialsFurther.

Lemma loadConfig_load (p : ptr) (h : Heap) (c : mysql.ConnectionConfig) :
  loadConfig p h = Some c → load p h = Some (ObjConnectionConfig c).
Proof.
  unfold loadConfig. destruct (load p h) as [[d| |]|]; try discriminate.
  now intros [= ->].
Qed.

(** Two heaps that agree away from [p] and hold the same configuration at
    [p] are one heap. *)
Lemma same_elsewhere_eq (p : ptr) (h1 h2 : Heap) (c : mysql.ConnectionConfig) :
  same_elsewhere p h1 h2 →
  loadConfig p h1 = Some c → loadConfig p h2 = Some c → h2 = h1.
Proof.
  intros [_ Hframe] H1%loadConfig_load H2%loadConfig_load.
  apply list_eq. intros i.
  destruct (decide (p = Some i)) as [->|Hne].
  - exact (eq_trans H2 (eq_sym H1)).
  - apply (Hframe (Some i)). congruence.
Qed.

Lemma layered_twice (this : MigrationContext) (c : mysql.ConnectionConfig) :
  layered this (layered this c) = layered this c.
Proof.
  unfold layered. cbn [mysql.Hostname mysql.Port mysql.User mysql.Password].
  now destruct (negb (String.eqb (CliUser this) "")),
    (negb (String.eqb (Client.User (Client (config this))) "")),
    (negb (String.eqb (CliPassword this) "")),
    (negb (String.eqb (Client.Password (Client (config this))) "")).
Qed.

(** X12.  [ApplyCredentials] is idempotent: a second call changes neither
    the context nor the heap that the first call left. *)
Theorem ApplyCredentials_idempotent (this : MigrationContext) (h : Heap)
    (c : mysql.ConnectionConfig) :
  loadConfig (InspectorConnectionConfig this) h = Some c →
  ∃ h', ApplyCredentials this h = Some (this, h')
        ∧ ApplyCredentials this h' = Some (this, h').
Proof.
  intros Hload.
  destruct (ApplyCredentials_spec this h c Hload) as (h1 & Hrun1 & Hnew1 & _).
  destruct (ApplyCredentials_spec this h1 _ Hnew1) as (h2 & Hrun2 & Hnew2 & F2).
  exists h1. split; [exact Hrun1|]. rewrite Hrun2. do 2 f_equal.
  rewrite layered_twice in Hnew2.
  exact (same_elsewhere_eq _ _ _ _ F2 Hnew1 Hnew2).
Qed.

Lemma ApplyCredentials_idempotent_root :
  loadConfig (InspectorConnectionConfig cliContext) freshHeap = Some mysql.zero
  ∧ ∃ h', ApplyCredentials cliContext freshHeap = Some (cliContext, h')
          ∧ ApplyCredentials cliContext h' = Some (cliContext, h').
Proof.
  split; [reflexivity|].
  exact (ApplyCredentials_idempotent cliContext freshHeap mysql.zero eq_refl).
Defined.




(** X14.  [ApplyCredentials] never replaces a user or a password by the
    empty string: an inspector that has one before the call has one after
    it. *)
Theorem ApplyCredentials_never_clears (this : MigrationContext) (h : Heap)
    (c : mysql.ConnectionConfig) :
  loadConfig (InspectorConnectionConfig this) h = Some c →
  ∃ h' c',
    ApplyCredentials this h = Some (this, h')
    ∧ loadConfig (InspectorConnectionConfig this) h' = Some c'
    ∧ (mysql.User c ≠ "" → mysql.User c' ≠ "")
    ∧ (mysql.Password c ≠ "" → mysql.Password c' ≠ "").
Proof.
  intros Hload.
  destruct (ApplyCredentials_spec this h c Hload) as (h' & Hrun & Hnew & _).
  exists h', (layered this c). split; [exact Hrun|]. split; [exact Hnew|].
  unfold layered. cbn [mysql.User mysql.Password]. split; intros Hc.
  - destruct (String.eqb_spec (CliUser this) ""); cbn [negb]; [|assumption].
    now destruct (String.eqb_spec (Client.User (Client (config this))) "").
  - destruct (String.eqb_spec (CliPassword this) ""); cbn [negb]; [|assumption].
    now destruct (String.eqb_spec (Client.Password (Client (config this))) "").
Qed.

Lemma ApplyCredentials_never_clears_root :
  loadConfig (InspectorConnectionConfig cliContext)
    [ObjConnectionConfig (mysql.set_Password mysql.zero "kept")]
  = Some (mysql.set_Password mysql.zero "kept")
  ∧ ∃ h' c',
      ApplyCredentials cliContext
        [ObjConnectionConfig (mysql.set_Password mysql.zero "kept")]
      = Some (cliContext, h')
      ∧ loadConfig (InspectorConnectionConfig cliContext) h' = Some c'
      ∧ mysql.Password c' ≠ "".
Proof.
  split; [reflexivity|].
  destruct (ApplyCredentials_never_clears cliContext
              [ObjConnectionConfig (mysql.set_Password mysql.zero "kept")]
              (mysql.set_Password mysql.zero "kept") eq_refl)
    as (h' & c' & Hrun & Hnew & _ & Hpw).
  exists h', c'. split; [exact Hrun|]. split; [exact Hnew|].
  apply Hpw. discriminate.
Defined.

End CredentialsFurther.

(** ** The throttle state *)

Section Throttle.
Import Syntax.

(** X15.  [IsThrottled] returns what the last [SetThrottled] has set, a
    later [SetThrottled] replaces an earlier one, and setting what
    [IsThrottled] returns changes nothing. *)
Theorem SetThrottled_IsThrottled (this : MigrationContext)
    (throttle throttle' : bool) (reason reason' : string) :
  IsThrottled (SetThrottled this throttle reason) = (throttle, reason)
  ∧ SetThrottled (SetThrottled this throttle reason) throttle' reason'
    = SetThrottled this throttle' reason'
  ∧ SetThrottled this (fst (IsThrottled this)) (snd (IsThrottled this)) = this.
Proof. repeat split. now destruct this. Qed.

(** X16.  The throttle state and the max-load mapping do not meet:
    [ReadMaxLoad] leaves what [IsThrottled] returns as it was, and reading
    a string after [SetThrottled] gives what [SetThrottled] after the
    reading gives. *)
Theorem ReadMaxLoad_SetThrottled (this : MigrationContext)
    (maxLoadList : string) (throttle : bool) (reason : string) :
  IsThrottled (snd (ReadMaxLoad this maxLoadList)) = IsThrottled this
  ∧ ReadMaxLoad (SetThrottled this throttle reason) maxLoadList
    = (fst (ReadMaxLoad this maxLoadList),
       SetThrottled (snd (ReadMaxLoad this maxLoadList)) throttle reason).
Proof. rewrite !ReadMaxLoad_spec. now split. Qed.

End Throttle.

(** ** The table engine *)

Section TableEngine.
Variable ToLower : string → string.
Hypothesis ToLower_ASCII : ∀ s, isASCII s = true → ToLower s = lowerASCII s.

(** X17.  For a table engine of ASCII bytes, [IsTransactionalTable] is true
    exactly when the engine is [innodb] or [tokudb] in any mix of upper
    and lower case; so two engines that differ in case only are both
    transactional or both not. *)
Theorem IsTransactionalTable_ignores_case (this other : MigrationContext) :
  isASCII (TableEngine this) = true →
  (IsTransactionalTable ToLower this = true
   ↔ lowerASCII (TableEngine this) = "innodb"
     ∨ lowerASCII (TableEngine this) = "tokudb")
  ∧ (isASCII (TableEngine other) = true →
     lowerASCII (TableEngine this) = lowerASCII (TableEngine other) →
     IsTransactionalTable ToLower this = IsTransactionalTable ToLower other).
Proof.
  intros Hthis. unfold IsTransactionalTable. cbv zeta.
  rewrite (ToLower_ASCII _ Hthis). split.
  - destruct (String.eqb_spec (lowerASCII (TableEngine this)) "innodb") as [->|Hi];
      [split; auto|].
    destruct (String.eqb_spec (lowerASCII (TableEngine this)) "tokudb") as [->|Ht];
      [split; auto|].
    split; [discriminate|]. now intros [?|?].
  - intros Hother ->. now rewrite (ToLower_ASCII _ Hother).
Qed.

End TableEngine.

Lemma IsTransactionalTable_ignores_case_InnoDB :
  ((∀ s, isASCII s = true → lowerASCII s = lowerASCII s)
   ∧ isASCII (TableEngine (set_TableEngine freshContext "InnoDB")) = true
   ∧ isASCII (TableEngine (set_TableEngine freshContext "INNODB")) = true)
  ∧ IsTransactionalTable lowerASCII (set_TableEngine freshContext "InnoDB") = true
  ∧ IsTransactionalTable lowerASCII (set_TableEngine freshContext "INNODB") = true
  ∧ IsTransactionalTable lowerASCII (set_TableEngine freshContext "MyISAM") = false.
Proof.
  split; [repeat split|].
  destruct (IsTransactionalTable_ignores_case lowerASCII (λ s _, eq_refl)
              (set_TableEngine freshContext "InnoDB")
              (set_TableEngine freshContext "INNODB") eq_refl) as [Hiff Hcase].
  split; [|split].
  - apply Hiff. now left.
  - rewrite <- (Hcase eq_refl eq_refl). apply Hiff. now left.
  - reflexivity.
Defined.

(** ** The config file *)

Section ConfigFile.
Variable ReadFileInto : ContextConfig → string → Go.error * ContextConfig.



End ConfigFile.



(** ** The allocations of [newMigrationContext] *)

Section Allocation.

(** X20.  [newMigrationContext] gives the throttle state, the
    configuration and the point of interest a mutex each, three objects
    that did not exist before, and it leaves every object that existed as
    it was. *)
Theorem newMigrationContext_mutexes (h : Heap) :
  (load (throttleMutex (fst (newMigrationContext h)))
     (snd (newMigrationContext h)) = Some ObjMutex
   ∧ load (configMutex (fst (newMigrationContext h)))
       (snd (newMigrationContext h)) = Some ObjMutex
   ∧ load (pointOfInterestTimeMutex (fst (newMigrationContext h)))
       (snd (newMigrationContext h)) = Some ObjMutex)
  ∧ (throttleMutex (fst (newMigrationContext h))
     ≠ configMutex (fst (newMigrationContext h))
     ∧ throttleMutex (fst (newMigrationContext h))
       ≠ pointOfInterestTimeMutex (fst (newMigrationContext h))
     ∧ configMutex (fst (newMigrationContext h))
       ≠ pointOfInterestTimeMutex (fst (newMigrationContext h)))
  ∧ (load (throttleMutex (fst (newMigrationContext h))) h = None
     ∧ load (configMutex (fst (newMigrationContext h))) h = None
     ∧ load (pointOfInterestTimeMutex (fst (newMigrationContext h))) h = None)
  ∧ ∀ p x, load p h = Some x → load p (snd (newMigrationContext h)) = Some x.
Proof.
  unfold newMigrationContext, NewConnectionConfig, NewInstanceKeyMap, alloc.
  cbn [fst snd throttleMutex configMutex pointOfInterestTimeMutex load].
  rewrite <- !app_assoc. cbn [app].
  rewrite !length_app. cbn [List.length].
  split; [|split; [|split]].
  - repeat split; rewrite lookup_app_r by lia;
      rewrite Nat.add_comm, Nat.add_sub; reflexivity.
  - repeat split; intros [= H]; lia.
  - repeat split; apply lookup_ge_None; lia.
  - intros [a|] x H; [|discriminate]. now apply lookup_app_l_Some.
Qed.

Lemma newMigrationContext_mutexes_again :
  load (InspectorConnectionConfig freshContext) freshHeap
  = Some (ObjConnectionConfig mysql.zero)
  ∧ load (InspectorConnectionConfig freshContext)
      (snd (newMigrationContext freshHeap))
    = Some (ObjConnectionConfig mysql.zero)
  ∧ throttleMutex (fst (newMigrationContext freshHeap))
    ≠ configMutex (fst (newMigrationContext freshHeap)).
Proof.
  split; [reflexivity|].
  destruct (newMigrationContext_mutexes freshHeap)
    as (_ & (Hdistinct & _) & _ & Hold).
  split; [|exact Hdistinct].
  now apply Hold.
Defined.

End Allocation.
